(** * Tasks of the pf tasking system (src/sys/tasking.hpp)

    A shallow embedding of the [Task] and [TaskSet] classes declared in
    [tasking.hpp]: construction, the two dependency declarations
    [Task::starts] and [Task::ends], and the priority / affinity accessors.

    The header is embedded in its debug configuration ([NDEBUG] not
    defined): the [state] member exists and every [assert] is evaluated.
    Tasks live in a store indexed by their address, so that two pointers
    to the same task alias. *)

From stdpp Require Import gmap strings.

Open Scope Z_scope.

(** ** Machine integers *)

(** [uint16]: the value a 16 bit unsigned member holds after a store. *)
Definition uint16 (x : Z) : Z := x mod 65536.

(** [Atomic32], the type of the two dependency counters, is declared in
    sys/atomic.hpp, which is not part of the header.  The spec only says that
    the counters are atomic, start at 1 and are incremented; the width is in
    the type's name. *)
Module Atomic32.

(** Modelled from the spec: the largest value of an [Atomic32] cell, a two's
    complement 32 bit integer. *)
Definition MAX : Z := 2147483647.

(** Modelled from the spec: the value an [Atomic32] cell holds for the
    integer [x], by wrap-around. *)
Definition wrap (x : Z) : Z := (x + 2147483648) mod 4294967296 - 2147483648.

(** Modelled from the spec: [operator++] of [Atomic32], the increment the
    spec names; it wraps around as the hardware fetch-and-add does. *)
Definition incr (x : Z) : Z := wrap (x + 1).

End Atomic32.

(** ** The enumerations *)

Module TaskPriority.
Definition CRITICAL : Z := 0.
Definition HIGH     : Z := 1.
Definition NORMAL   : Z := 2.
Definition LOW      : Z := 3.
Definition NUM      : Z := 4.
Definition INVALID  : Z := 0xffff.
End TaskPriority.

Module TaskState.
Definition NEW      : Z := 0.
Definition READY    : Z := 1.
Definition RUNNING  : Z := 2.
Definition DONE     : Z := 3.
Definition NUM      : Z := 4.
Definition INVALID  : Z := 0xffff.
End TaskState.

(** ** Task objects *)

(** A task address; a [Task*] is [option addr], with [None] for [NULL]. *)
Abbreviation addr := positive (only parsing).

(** The members of [Task], in declaration order, preceded by the counter
    inherited from [RefCount]. *)
Record Task := mkTask {
  refCounter  : Z;
  toBeEnded   : option addr;
  toBeStarted : option addr;
  name        : option string;
  toStart     : Z;
  toEnd       : Z;
  priority    : Z;
  affinity    : Z;
  state       : Z
}.

(** [RefCount], the base class of [Task], is declared in sys/ref.hpp, which
    is not part of the header.  The spec calls it an internal reference count
    of which the scheduler holds one reference. *)
Module RefCount.

(** Modelled from the spec: the count of a fresh object, which nobody
    references yet. *)
Definition init : Z := 0.

(** Modelled from the spec: [RefCount::refInc], which takes one more
    reference; the count is kept in an atomic cell like the two dependency
    counters. *)
Definition refInc (t : Task) : Task :=
  mkTask (Atomic32.incr (refCounter t)) (toBeEnded t) (toBeStarted t)
         (name t) (toStart t) (toEnd t) (priority t) (affinity t) (state t).

End RefCount.

(** [Task::Task(const char *taskName = NULL)]: the member initialisers, the
    two [Ref<Task>] members default to [NULL], then the body's [refInc]. *)
Definition Task_ctor (taskName : option string) : Task :=
  RefCount.refInc
    (mkTask RefCount.init None None taskName 1 1
            (uint16 TaskPriority.NORMAL) 0xffff (uint16 TaskState.NEW)).

(** [Task::Task()] with the default argument. *)
Definition Task_ctor_default : Task := Task_ctor None.

(** ** The store of tasks and the result of a call *)

(** What a call does: it returns, possibly with a value, it stops at a failed
    [assert], or it dereferences a pointer to no live task. *)
Inductive outcome (A : Type) : Type :=
  | Returned (a : A)
  | AssertFailed
  | BadPointer.
Arguments Returned {A} a.
Arguments AssertFailed {A}.
Arguments BadPointer {A}.

(** Running [k] after a call that returned. *)
Definition and_then {A B : Type} (o : outcome A) (k : A -> outcome B) : outcome B :=
  match o with
  | Returned a => k a
  | AssertFailed => AssertFailed
  | BadPointer => BadPointer
  end.

#[global] Instance outcome_bind : MBind outcome :=
  fun A B k o => and_then o k.

(** Member writes. *)
Definition set_toBeEnded (p : option addr) (t : Task) : Task :=
  mkTask (refCounter t) p (toBeStarted t) (name t) (toStart t) (toEnd t)
         (priority t) (affinity t) (state t).
Definition set_toBeStarted (p : option addr) (t : Task) : Task :=
  mkTask (refCounter t) (toBeEnded t) p (name t) (toStart t) (toEnd t)
         (priority t) (affinity t) (state t).
Definition set_toStart (x : Z) (t : Task) : Task :=
  mkTask (refCounter t) (toBeEnded t) (toBeStarted t) (name t) x (toEnd t)
         (priority t) (affinity t) (state t).
Definition set_toEnd (x : Z) (t : Task) : Task :=
  mkTask (refCounter t) (toBeEnded t) (toBeStarted t) (name t) (toStart t) x
         (priority t) (affinity t) (state t).
Definition set_priority (x : Z) (t : Task) : Task :=
  mkTask (refCounter t) (toBeEnded t) (toBeStarted t) (name t) (toStart t)
         (toEnd t) x (affinity t) (state t).
Definition set_affinity (x : Z) (t : Task) : Task :=
  mkTask (refCounter t) (toBeEnded t) (toBeStarted t) (name t) (toStart t)
         (toEnd t) (priority t) x (state t).

(** [p->member] for reading: the task at [p], which has to be live. *)
Definition deref (h : gmap positive Task) (p : addr) : outcome Task :=
  match h !! p with
  | Some t => Returned t
  | None => BadPointer
  end.

(** [assert(c)] in a debug build. *)
Definition assert (c : bool) : outcome unit :=
  if c then Returned tt else AssertFailed.

(** [Ref<Task>], the type of the two edges, is declared in sys/ref.hpp, which
    is not part of the header. *)
Module Ref.

(** Modelled from the spec: the assignment of a task to a [Ref<Task>] that
    holds [NULL].  The spec describes the edge as an optional owned
    reference: the assignment takes one reference on the task, and there is
    no previous pointee to release. *)
Definition acquire (h : gmap positive Task) (p : addr) : gmap positive Task :=
  alter RefCount.refInc p h.

End Ref.

(** [void Task::starts(Task *other)].  Every write goes to the store as the
    previous write left it, so the call is right also when [other] is the
    caller itself. *)
Definition starts (h : gmap positive Task) (this : addr) (other : option addr)
  : outcome (gmap positive Task) :=
  match other with
  | None => Returned h                           (* if (other == NULL) return; *)
  | Some o =>
      to ← deref h o;                            (* assert(other->state == NEW); *)
      _ ← assert (state to =? TaskState.NEW);
      me ← deref h this;                         (* if (this->toBeStarted) return; *)
      if bool_decide (toBeStarted me <> None) then Returned h
      else
        (* other->toStart++; *)
        let h1 := alter (fun t => set_toStart (Atomic32.incr (toStart t)) t) o h in
        (* this->toBeStarted = other; *)
        let h2 := Ref.acquire h1 o in
        Returned (alter (set_toBeStarted (Some o)) this h2)
  end.

(** [void Task::ends(Task *other)]. *)
Definition ends (h : gmap positive Task) (this : addr) (other : option addr)
  : outcome (gmap positive Task) :=
  match other with
  | None => Returned h                           (* if (other == NULL) return; *)
  | Some o =>
      to ← deref h o;                            (* assert(other->state == NEW ||
                                                           other->state == RUNNING); *)
      _ ← assert ((state to =? TaskState.NEW) || (state to =? TaskState.RUNNING));
      me ← deref h this;                         (* if (this->toBeEnded) return; *)
      if bool_decide (toBeEnded me <> None) then Returned h
      else
        (* other->toEnd++; *)
        let h1 := alter (fun t => set_toEnd (Atomic32.incr (toEnd t)) t) o h in
        (* this->toBeEnded = other; *)
        let h2 := Ref.acquire h1 o in
        Returned (alter (set_toBeEnded (Some o)) this h2)
  end.

(** [void Task::setPriority(uint16 prio)]; the argument is converted to
    [uint16] at the call. *)
Definition setPriority (h : gmap positive Task) (this : addr) (prio : Z)
  : outcome (gmap positive Task) :=
  t ← deref h this;
  _ ← assert (state t =? TaskState.NEW);
  Returned (alter (set_priority (uint16 prio)) this h).

(** [void Task::setAffinity(uint16 affi)]. *)
Definition setAffinity (h : gmap positive Task) (this : addr) (affi : Z)
  : outcome (gmap positive Task) :=
  t ← deref h this;
  _ ← assert (state t =? TaskState.NEW);
  Returned (alter (set_affinity (uint16 affi)) this h).

(** [uint16 Task::getPriority(void) const]. *)
Definition getPriority (h : gmap positive Task) (this : addr) : outcome Z :=
  t ← deref h this; Returned (priority t).

(** [uint16 Task::getAffinity(void) const]. *)
Definition getAffinity (h : gmap positive Task) (this : addr) : outcome Z :=
  t ← deref h this; Returned (affinity t).

(** The targets whose state the assertion of [starts] accepts: [NULL], which
    returns before the assertion, or a live task in state NEW. *)
Definition starts_accepts (h : gmap positive Task) (other : option addr) : bool :=
  match other with
  | None => true
  | Some o =>
      match h !! o with
      | Some to => state to =? TaskState.NEW
      | None => false
      end
  end.

(** The same for [ends]: [NULL], or a live task in state NEW or RUNNING. *)
Definition ends_accepts (h : gmap positive Task) (other : option addr) : bool :=
  match other with
  | None => true
  | Some o =>
      match h !! o with
      | Some to => (state to =? TaskState.NEW) || (state to =? TaskState.RUNNING)
      | None => false
      end
  end.

(** ** Task sets *)

(** [Atomic], the type of the counter of remaining elements, is declared in
    sys/atomic.hpp, which is not part of the header. *)
Module Atomic.

(** Modelled from the spec: the constructor of an [Atomic] cell.  The spec
    says the counter is initialized to N: a cell constructed from a value
    holds that value. *)
Definition init (v : Z) : Z := v.

End Atomic.

(** [class TaskSet : public Task]: the base object and the one member the
    class adds. *)
Record TaskSet := mkTaskSet {
  TaskSet_Task : Task;
  elemNum      : Z
}.

(** [TaskSet::TaskSet(size_t elemNum, const char *name = NULL)]; a [size_t]
    is an unsigned number. *)
Definition TaskSet_ctor (elemNum : N) (name : option string) : TaskSet :=
  mkTaskSet (Task_ctor name) (Atomic.init (Z.of_N elemNum)).

(** ** What the scheduler does with priority and affinity *)

(** The scheduler itself is in tasking.cpp, of which the header only has the
    declarations; the two rules below are the ones that give the priority and
    affinity members their meaning. *)
Module Scheduler.

(** Modelled from the spec: the affinity value the spec names ANY. *)
Definition ANY : Z := 0xFFFF.

(** Modelled from the spec: the four priority bands, one pair of queues
    each, in the order the enumeration lists them. *)
Definition bands : list Z :=
  [TaskPriority.CRITICAL; TaskPriority.HIGH; TaskPriority.NORMAL; TaskPriority.LOW].

(** Modelled from the spec: the queues a newly ready task can be pushed
    to, each of some worker and at some band. *)
Inductive target : Type :=
  | AffinityFifo (worker band : Z)
  | WorkStealingDeque (worker band : Z).

(** Modelled from the spec: the enqueue target of tasking.cpp (not part of
    the header).  "Into its affinity FIFO at band priority if affinity !=
    ANY && affinity == this_worker_id; into the global FIFO for worker
    affinity if affinity != ANY && affinity != this_worker_id; otherwise
    pushed onto the calling worker's own work-stealing deque at band
    priority." *)
Definition enqueue_target (t : Task) (this_worker_id : Z) : target :=
  if negb (affinity t =? ANY) && (affinity t =? this_worker_id)
  then AffinityFifo this_worker_id (priority t)
  else if negb (affinity t =? ANY) && negb (affinity t =? this_worker_id)
  then AffinityFifo (affinity t) (priority t)
  else WorkStealingDeque this_worker_id (priority t).

(** Modelled from the spec: one worker's ready queues, an affinity FIFO
    and a work-stealing deque per band; the head of a list is the task the
    owner takes next. *)
Record QueueSet := mkQueueSet {
  fifo  : Z -> list addr;
  deque : Z -> list addr
}.

(** Modelled from the spec: the selection order of tasking.cpp (not part of
    the header).  "Scan bands CRITICAL -> LOW; within a band, prefer
    affinity FIFO over work-stealing deque." *)
Fixpoint scan (q : QueueSet) (bs : list Z) : option (Z * addr) :=
  match bs with
  | [] => None
  | b :: bs' =>
      match fifo q b, deque q b with
      | t :: _, _ => Some (b, t)
      | [], t :: _ => Some (b, t)
      | [], [] => scan q bs'
      end
  end.

(** Modelled from the spec: what a worker picks from its own queues, with
    the band it comes from. *)
Definition pick_local (q : QueueSet) : option (Z * addr) := scan q bands.

End Scheduler.

(** ** Sample stores *)

(** The scheduler moving a task to another state (tasking.cpp). *)
Definition with_state (s : Z) (t : Task) : Task :=
  mkTask (refCounter t) (toBeEnded t) (toBeStarted t) (name t) (toStart t)
         (toEnd t) (priority t) (affinity t) s.

(** Three tasks as their constructor leaves them. *)
Definition three_fresh : gmap positive Task :=
  <[1%positive := Task_ctor (Some "root")]>
    (<[2%positive := Task_ctor None]>
       (<[3%positive := Task_ctor (Some "sink")]> ∅)).

(** The same with task 1 finished. *)
Definition first_done : gmap positive Task :=
  alter (with_state TaskState.DONE) 1%positive three_fresh.

(** Task 1 finished and task 2 submitted and ready. *)
Definition done_and_ready : gmap positive Task :=
  alter (with_state TaskState.READY) 2%positive first_done.

(** The same with task 2 submitted and ready. *)
Definition second_ready : gmap positive Task :=
  alter (with_state TaskState.READY) 2%positive three_fresh.

(** The same with task 2 running. *)
Definition second_running : gmap positive Task :=
  alter (with_state TaskState.RUNNING) 2%positive three_fresh.

(** The store a call sequence leaves, when every call returned. *)
Definition store_of (o : outcome (gmap positive Task)) : gmap positive Task :=
  match o with
  | Returned h => h
  | _ => ∅
  end.

(** Task 1 has declared both of its edges, to task 3. *)
Definition both_linked : gmap positive Task :=
  store_of (k ← starts three_fresh 1%positive (Some 3%positive);
            ends k 1%positive (Some 3%positive)).

(** Task 1 as [both_linked] has it. *)
Definition linked_task : Task :=
  mkTask 1 (Some 3%positive) (Some 3%positive) (Some "root") 1 1 2 0xffff 0.

(** The same with task 2 submitted and ready, and with task 2 done. *)
Definition linked_ready : gmap positive Task :=
  alter (with_state TaskState.READY) 2%positive both_linked.
Definition linked_done : gmap positive Task :=
  alter (with_state TaskState.DONE) 2%positive both_linked.

(** A worker with one LOW task in its affinity FIFO and one HIGH task in its
    deque. *)
Definition sample_queues : Scheduler.QueueSet :=
  Scheduler.mkQueueSet
    (fun b => if b =? TaskPriority.LOW then [1%positive] else [])
    (fun b => if b =? TaskPriority.HIGH then [2%positive] else []).

(** ** Programs of calls *)

(** The two kinds of edge a task declares, with the member that holds the
    edge, the counter of the target it raises and the call that declares
    it. *)
Inductive edge : Type := StartEdge | EndEdge.

#[global] Instance edge_eq_dec : EqDecision edge.
Proof. solve_decision. Defined.

Definition edge_of (e : edge) (t : Task) : option addr :=
  match e with StartEdge => toBeStarted t | EndEdge => toBeEnded t end.

Definition counter_of (e : edge) (t : Task) : Z :=
  match e with StartEdge => toStart t | EndEdge => toEnd t end.

Definition declare (e : edge) (h : gmap positive Task) (this : addr)
    (other : option addr) : outcome (gmap positive Task) :=
  match e with StartEdge => starts h this other | EndEdge => ends h this other end.

Definition accepts (e : edge) (h : gmap positive Task) (other : option addr) : bool :=
  match e with StartEdge => starts_accepts h other | EndEdge => ends_accepts h other end.

(** The three writes of a call that declares an edge to [o]: the target's
    counter, the reference taken on the target, the caller's edge. *)
Definition bump (e : edge) (t : Task) : Task :=
  match e with
  | StartEdge => set_toStart (Atomic32.incr (toStart t)) t
  | EndEdge => set_toEnd (Atomic32.incr (toEnd t)) t
  end.

Definition link (e : edge) (o : addr) (t : Task) : Task :=
  match e with
  | StartEdge => set_toBeStarted (Some o) t
  | EndEdge => set_toBeEnded (Some o) t
  end.

Definition declared (e : edge) (h : gmap positive Task) (this o : addr)
  : gmap positive Task :=
  alter (link e o) this (Ref.acquire (alter (bump e) o h) o).

(** Whether a declaration returns, and the store it then leaves: the store
    it found when the target is [NULL] or the caller's edge is set, the three
    writes otherwise. *)
Definition returns (e : edge) (h : gmap positive Task) (this : addr)
    (other : option addr) : bool :=
  accepts e h other &&
  match other with
  | None => true
  | Some _ => bool_decide (is_Some (h !! this))
  end.

Definition fires (e : edge) (h : gmap positive Task) (this : addr) : bool :=
  match h !! this with
  | Some me => bool_decide (edge_of e me = None)
  | None => false
  end.

Definition effect (e : edge) (h : gmap positive Task) (this : addr)
    (other : option addr) : gmap positive Task :=
  match other with
  | None => h
  | Some o => if fires e h this then declared e h this o else h
  end.

(** A call of one of the four member functions that write to a task. *)
Inductive call : Type :=
  | Starts (this : addr) (other : option addr)
  | Ends (this : addr) (other : option addr)
  | SetPriority (this : addr) (prio : Z)
  | SetAffinity (this : addr) (affi : Z).

Definition do_call (h : gmap positive Task) (c : call) : outcome (gmap positive Task) :=
  match c with
  | Starts this other => starts h this other
  | Ends this other => ends h this other
  | SetPriority this prio => setPriority h this prio
  | SetAffinity this affi => setAffinity h this affi
  end.

(** A straight-line program: the calls one after the other, up to the first
    one that does not return. *)
Fixpoint do_calls (h : gmap positive Task) (cs : list call)
  : outcome (gmap positive Task) :=
  match cs with
  | [] => Returned h
  | c :: cs' => k ← do_call h c; do_calls k cs'
  end.

(** The member a call writes, and of which task: the caller's.  (A
    declaration also raises a counter of its target, which no call reads.) *)
Inductive member : Type := MStartEdge | MEndEdge | MPriority | MAffinity.

#[global] Instance member_eq_dec : EqDecision member.
Proof. solve_decision. Defined.

Definition writes (c : call) : member * addr :=
  match c with
  | Starts this _ => (MStartEdge, this)
  | Ends this _ => (MEndEdge, this)
  | SetPriority this _ => (MPriority, this)
  | SetAffinity this _ => (MAffinity, this)
  end.

(** Whether a call returns, and the store it then leaves. *)
Definition call_returns (h : gmap positive Task) (c : call) : bool :=
  match c with
  | Starts this other => returns StartEdge h this other
  | Ends this other => returns EndEdge h this other
  | SetPriority this _ | SetAffinity this _ =>
      match h !! this with
      | Some t => state t =? TaskState.NEW
      | None => false
      end
  end.

Definition call_effect (h : gmap positive Task) (c : call) : gmap positive Task :=
  match c with
  | Starts this other => effect StartEdge h this other
  | Ends this other => effect EndEdge h this other
  | SetPriority this prio => alter (set_priority (uint16 prio)) this h
  | SetAffinity this affi => alter (set_affinity (uint16 affi)) this h
  end.

(** The task pointers a call dereferences: the caller and a non-null
    target. *)
Definition mentions (c : call) : list addr :=
  match c with
  | Starts this (Some o) | Ends this (Some o) => [this; o]
  | Starts this None | Ends this None => [this]
  | SetPriority this _ | SetAffinity this _ => [this]
  end.

(** Stores in which no task was submitted yet. *)
Definition all_new (h : gmap positive Task) : Prop :=
  forall (a : addr) (t : Task), h !! a = Some t -> state t = TaskState.NEW.

(** The priority and the affinity of task [x] after a program, from the
    ones before it: those of the last setter call on [x], if there is one. *)
Definition step_priority (x : addr) (p : Z) (c : call) : Z :=
  match c with
  | SetPriority this prio => if decide (this = x) then uint16 prio else p
  | _ => p
  end.

Definition step_affinity (x : addr) (p : Z) (c : call) : Z :=
  match c with
  | SetAffinity this affi => if decide (this = x) then uint16 affi else p
  | _ => p
  end.

Definition final_priority (cs : list call) (x : addr) (p : Z) : Z :=
  fold_left (step_priority x) cs p.

Definition final_affinity (cs : list call) (x : addr) (p : Z) : Z :=
  fold_left (step_affinity x) cs p.

(** The tasks whose edge of kind [e] points to [a]. *)
Definition preds (e : edge) (h : gmap positive Task) (a : addr) : gset positive :=
  dom (filter (fun kt => edge_of e kt.2 = Some a) h).

(** Every counter is its initial 1 plus the number of edges that point to
    the task, as a 32 bit cell holds it. *)
Definition counts_edges (h : gmap positive Task) : Prop :=
  forall (e : edge) (a : addr) (t : Task),
    h !! a = Some t ->
    counter_of e t = Atomic32.wrap (1 + Z.of_nat (size (preds e h a))).

(** Tasks on which no edge was declared yet: no edge set, counters at 1. *)
Definition unlinked (h : gmap positive Task) : Prop :=
  forall (a : addr) (t : Task),
    h !! a = Some t ->
    toBeStarted t = None /\ toBeEnded t = None /\ toStart t = 1 /\ toEnd t = 1.

(** Tasks 1 and 2 declare a start edge to task 3, and task 1 an end edge. *)
Definition fan_in_calls : list call :=
  [Starts 1%positive (Some 3%positive);
   Starts 2%positive (Some 3%positive);
   Ends 1%positive (Some 3%positive)].

Definition fan_in : gmap positive Task := store_of (do_calls three_fresh fan_in_calls).

(** Task 3 as [fan_in] has it. *)
Definition fan_in_sink : Task :=
  mkTask 4 None None (Some "sink") 3 2 2 0xffff 0.

(** * Properties *)

(** ** Machine integers *)

Lemma Atomic32_incr_exact (x : Z) :
  -2147483648 <= x < Atomic32.MAX -> Atomic32.incr x = x + 1.
Proof.
  unfold Atomic32.incr, Atomic32.wrap, Atomic32.MAX. intros Hx.
  rewrite Z.mod_small; lia.
Qed.

Lemma uint16_id (v : Z) : 0 <= v < 65536 -> uint16 v = v.
Proof. intros Hv. unfold uint16. by apply Z.mod_small. Qed.

(** ** Construction *)

(** C5: for every optional name, a freshly constructed task is in state NEW,
    both counters are 1, the priority is NORMAL (2), the affinity is 0xFFFF,
    no edge is set, the name is the one given, and the reference count is one
    above that of an unreferenced object: the scheduler's reference. *)
Theorem Task_ctor_fresh (taskName : option string) :
  state (Task_ctor taskName) = TaskState.NEW /\
  toStart (Task_ctor taskName) = 1 /\
  toEnd (Task_ctor taskName) = 1 /\
  priority (Task_ctor taskName) = TaskPriority.NORMAL /\
  priority (Task_ctor taskName) = 2 /\
  affinity (Task_ctor taskName) = 0xFFFF /\
  refCounter (Task_ctor taskName) = RefCount.init + 1 /\
  refCounter (Task_ctor taskName) = 1 /\
  toBeStarted (Task_ctor taskName) = None /\
  toBeEnded (Task_ctor taskName) = None /\
  name (Task_ctor taskName) = taskName.
Proof. by repeat split. Qed.

(** C8: for every element count N and every optional name, the task set
    constructed with N holds N in its counter of remaining elements, and its
    base object is exactly the task the [Task] constructor builds for that
    name (state NEW, counters 1, priority NORMAL, affinity 0xFFFF, one
    reference). *)
Theorem TaskSet_ctor_fresh (n : N) (taskName : option string) :
  elemNum (TaskSet_ctor n taskName) = Z.of_N n /\
  TaskSet_Task (TaskSet_ctor n taskName) = Task_ctor taskName /\
  state (TaskSet_Task (TaskSet_ctor n taskName)) = TaskState.NEW /\
  toStart (TaskSet_Task (TaskSet_ctor n taskName)) = 1 /\
  toEnd (TaskSet_Task (TaskSet_ctor n taskName)) = 1 /\
  priority (TaskSet_Task (TaskSet_ctor n taskName)) = TaskPriority.NORMAL /\
  affinity (TaskSet_Task (TaskSet_ctor n taskName)) = 0xFFFF /\
  refCounter (TaskSet_Task (TaskSet_ctor n taskName)) = 1 /\
  toBeStarted (TaskSet_Task (TaskSet_ctor n taskName)) = None /\
  toBeEnded (TaskSet_Task (TaskSet_ctor n taskName)) = None /\
  name (TaskSet_Task (TaskSet_ctor n taskName)) = taskName.
Proof. by repeat split. Qed.

(** ** Declaring edges *)

(** C9: whatever the store and whatever task makes the call, [starts(NULL)]
    and [ends(NULL)] return at once: no assertion fails and the store, that
    is every member of every task, is as before. *)
Theorem null_edge_ignored (h : gmap positive Task) (self : addr) :
  starts h self None = Returned h /\ ends h self None = Returned h.
Proof. split; reflexivity. Qed.

(** The store [starts] leaves when it does declare the edge. *)
Lemma starts_fresh (h : gmap positive Task) (self other : addr) (ts to : Task) :
  h !! self = Some ts -> h !! other = Some to ->
  toBeStarted ts = None -> state to = TaskState.NEW ->
  starts h self (Some other) =
    Returned (alter (set_toBeStarted (Some other)) self
                (alter RefCount.refInc other
                   (alter (fun t => set_toStart (Atomic32.incr (toStart t)) t) other h))).
Proof.
  intros Hs Ho Hfree Hnew. unfold starts, deref.
  rewrite Ho. cbn. rewrite Hnew. cbn. rewrite Hs. cbn.
  rewrite Hfree. by rewrite bool_decide_eq_false_2 by (intros Hne; by apply Hne).
Qed.

(** The store [ends] leaves when it does declare the edge. *)
Lemma ends_fresh (h : gmap positive Task) (self other : addr) (ts to : Task) :
  h !! self = Some ts -> h !! other = Some to ->
  toBeEnded ts = None ->
  state to = TaskState.NEW \/ state to = TaskState.RUNNING ->
  ends h self (Some other) =
    Returned (alter (set_toBeEnded (Some other)) self
                (alter RefCount.refInc other
                   (alter (fun t => set_toEnd (Atomic32.incr (toEnd t)) t) other h))).
Proof.
  intros Hs Ho Hfree Hst. unfold ends, deref.
  rewrite Ho. cbn.
  assert ((state to =? TaskState.NEW) || (state to =? TaskState.RUNNING) = true) as ->.
  { destruct Hst as [-> | ->]; reflexivity. }
  cbn. rewrite Hs. cbn.
  rewrite Hfree. by rewrite bool_decide_eq_false_2 by (intros Hne; by apply Hne).
Qed.

(** C1: when [self] has no start edge yet and [other] is a live task in state
    NEW, [self.starts(other)] returns, [other]'s [toStart] is its old value
    incremented once (the 32 bit increment, which is the old value plus 1
    below the largest value), [self]'s [toBeStarted] is [other], and no third
    task is touched. *)
Theorem starts_declares_edge (h : gmap positive Task) (self other : addr)
    (ts to : Task) :
  h !! self = Some ts -> h !! other = Some to ->
  toBeStarted ts = None -> state to = TaskState.NEW ->
  exists h' : gmap positive Task,
    starts h self (Some other) = Returned h' /\
    toStart <$> h' !! other = Some (Atomic32.incr (toStart to)) /\
    (-2147483648 <= toStart to < Atomic32.MAX ->
       toStart <$> h' !! other = Some (toStart to + 1)) /\
    toBeStarted <$> h' !! self = Some (Some other) /\
    (forall a : addr, a <> self -> a <> other -> h' !! a = h !! a).
Proof.
  intros Hs Ho Hfree Hnew. eexists. split; [by eapply starts_fresh|].
  assert (toStart <$>
            alter (set_toBeStarted (Some other)) self
              (alter RefCount.refInc other
                 (alter (fun t => set_toStart (Atomic32.incr (toStart t)) t) other h))
            !! other = Some (Atomic32.incr (toStart to))) as Hcount.
  { destruct (decide (self = other)) as [-> | Hne].
    - rewrite !lookup_alter_eq, Ho. reflexivity.
    - rewrite lookup_alter_ne by done. rewrite !lookup_alter_eq, Ho. reflexivity. }
  repeat split.
  - exact Hcount.
  - intros Hrange. by rewrite Hcount, Atomic32_incr_exact.
  - rewrite lookup_alter_eq.
    destruct (decide (self = other)) as [-> | Hne].
    + rewrite !lookup_alter_eq, Ho. reflexivity.
    + rewrite !lookup_alter_ne by done. rewrite Hs. reflexivity.
  - intros a Has Hao. by rewrite !lookup_alter_ne.
Qed.

(** C2: when [self] has no end edge yet and [other] is a live task in state
    NEW or RUNNING, [self.ends(other)] returns, [other]'s [toEnd] is its old
    value incremented once, [self]'s [toBeEnded] is [other], and no third
    task is touched. *)
Theorem ends_declares_edge (h : gmap positive Task) (self other : addr)
    (ts to : Task) :
  h !! self = Some ts -> h !! other = Some to ->
  toBeEnded ts = None ->
  state to = TaskState.NEW \/ state to = TaskState.RUNNING ->
  exists h' : gmap positive Task,
    ends h self (Some other) = Returned h' /\
    toEnd <$> h' !! other = Some (Atomic32.incr (toEnd to)) /\
    (-2147483648 <= toEnd to < Atomic32.MAX ->
       toEnd <$> h' !! other = Some (toEnd to + 1)) /\
    toBeEnded <$> h' !! self = Some (Some other) /\
    (forall a : addr, a <> self -> a <> other -> h' !! a = h !! a).
Proof.
  intros Hs Ho Hfree Hst. eexists. split; [by eapply ends_fresh|].
  assert (toEnd <$>
            alter (set_toBeEnded (Some other)) self
              (alter RefCount.refInc other
                 (alter (fun t => set_toEnd (Atomic32.incr (toEnd t)) t) other h))
            !! other = Some (Atomic32.incr (toEnd to))) as Hcount.
  { destruct (decide (self = other)) as [-> | Hne].
    - rewrite !lookup_alter_eq, Ho. reflexivity.
    - rewrite lookup_alter_ne by done. rewrite !lookup_alter_eq, Ho. reflexivity. }
  repeat split.
  - exact Hcount.
  - intros Hrange. by rewrite Hcount, Atomic32_incr_exact.
  - rewrite lookup_alter_eq.
    destruct (decide (self = other)) as [-> | Hne].
    + rewrite !lookup_alter_eq, Ho. reflexivity.
    + rewrite !lookup_alter_ne by done. rewrite Hs. reflexivity.
  - intros a Has Hao. by rewrite !lookup_alter_ne.
Qed.

(** Witness of C1: task 1 declares a start edge to the fresh task 2. *)
Lemma starts_declares_edge_witness :
  exists h' : gmap positive Task,
    starts three_fresh 1%positive (Some 2%positive) = Returned h' /\
    toStart <$> h' !! 2%positive = Some (Atomic32.incr (toStart (Task_ctor None))) /\
    (-2147483648 <= toStart (Task_ctor None) < Atomic32.MAX ->
       toStart <$> h' !! 2%positive = Some (toStart (Task_ctor None) + 1)) /\
    toBeStarted <$> h' !! 1%positive = Some (Some 2%positive) /\
    (forall a : addr, a <> 1%positive -> a <> 2%positive -> h' !! a = three_fresh !! a).
Proof.
  apply (starts_declares_edge three_fresh 1%positive 2%positive
           (Task_ctor (Some "root")) (Task_ctor None)); reflexivity.
Defined.

(** Witness of C2: task 1 declares an end edge to the running task 2. *)
Lemma ends_declares_edge_witness :
  exists h' : gmap positive Task,
    ends second_running 1%positive (Some 2%positive) = Returned h' /\
    toEnd <$> h' !! 2%positive =
      Some (Atomic32.incr (toEnd (with_state TaskState.RUNNING (Task_ctor None)))) /\
    (-2147483648 <= toEnd (with_state TaskState.RUNNING (Task_ctor None)) < Atomic32.MAX ->
       toEnd <$> h' !! 2%positive =
         Some (toEnd (with_state TaskState.RUNNING (Task_ctor None)) + 1)) /\
    toBeEnded <$> h' !! 1%positive = Some (Some 2%positive) /\
    (forall a : addr, a <> 1%positive -> a <> 2%positive -> h' !! a = second_running !! a).
Proof.
  apply (ends_declares_edge second_running 1%positive 2%positive
           (Task_ctor (Some "root")) (with_state TaskState.RUNNING (Task_ctor None)));
    first [reflexivity | right; reflexivity].
Defined.

(** [starts] and [ends] never change the state of a task, nor which tasks are
    live. *)
Lemma starts_state (h k : gmap positive Task) (self : addr) (other : option addr) (a : addr) :
  starts h self other = Returned k -> state <$> k !! a = state <$> h !! a.
Proof.
  unfold starts, deref. destruct other as [o|]; [|by intros [= ->]].
  destruct (h !! o) as [to|] eqn:Ho; cbn; [|done].
  destruct (state to =? TaskState.NEW); cbn; [|done].
  destruct (h !! self) as [ts|] eqn:Hs; cbn; [|done].
  case_bool_decide; intros [= <-]; [done|].
  unfold Ref.acquire. rewrite !lookup_alter. clear Ho Hs.
  repeat case_decide; subst;
    match goal with |- context [h !! ?x] => destruct (h !! x) end; reflexivity.
Qed.

Lemma ends_state (h k : gmap positive Task) (self : addr) (other : option addr) (a : addr) :
  ends h self other = Returned k -> state <$> k !! a = state <$> h !! a.
Proof.
  unfold ends, deref. destruct other as [o|]; [|by intros [= ->]].
  destruct (h !! o) as [to|] eqn:Ho; cbn; [|done].
  destruct ((state to =? TaskState.NEW) || (state to =? TaskState.RUNNING)); cbn; [|done].
  destruct (h !! self) as [ts|] eqn:Hs; cbn; [|done].
  case_bool_decide; intros [= <-]; [done|].
  unfold Ref.acquire. rewrite !lookup_alter. clear Ho Hs.
  repeat case_decide; subst;
    match goal with |- context [h !! ?x] => destruct (h !! x) end; reflexivity.
Qed.

Lemma starts_accepts_state (h k : gmap positive Task) (p : option addr) :
  (forall a : addr, state <$> k !! a = state <$> h !! a) ->
  starts_accepts k p = starts_accepts h p.
Proof.
  intros Hst. destruct p as [o|]; [|done]. cbn.
  specialize (Hst o).
  destruct (k !! o) as [tk|], (h !! o) as [th|]; cbn in Hst; try done.
  by injection Hst as ->.
Qed.

Lemma ends_accepts_state (h k : gmap positive Task) (p : option addr) :
  (forall a : addr, state <$> k !! a = state <$> h !! a) ->
  ends_accepts k p = ends_accepts h p.
Proof.
  intros Hst. destruct p as [o|]; [|done]. cbn.
  specialize (Hst o).
  destruct (k !! o) as [tk|], (h !! o) as [th|]; cbn in Hst; try done.
  by injection Hst as ->.
Qed.

(** Once the edge is set, an accepted call changes nothing. *)
Lemma starts_again (h : gmap positive Task) (self : addr) (ts : Task) (c : option addr) :
  h !! self = Some ts -> toBeStarted ts <> None ->
  starts_accepts h c = true -> starts h self c = Returned h.
Proof.
  intros Hs Hset Hc. unfold starts, deref. destruct c as [o|]; [|done].
  cbn in Hc. destruct (h !! o) as [to|]; [|done]. cbn. rewrite Hc. cbn.
  rewrite Hs. cbn. by rewrite bool_decide_eq_true_2.
Qed.

Lemma ends_again (h : gmap positive Task) (self : addr) (ts : Task) (c : option addr) :
  h !! self = Some ts -> toBeEnded ts <> None ->
  ends_accepts h c = true -> ends h self c = Returned h.
Proof.
  intros Hs Hset Hc. unfold ends, deref. destruct c as [o|]; [|done].
  cbn in Hc. destruct (h !! o) as [to|]; [|done]. cbn. rewrite Hc. cbn.
  rewrite Hs. cbn. by rewrite bool_decide_eq_true_2.
Qed.

(** After a call that declares the edge, the caller is live and its edge is
    set. *)
Lemma starts_declares_edge_of (h : gmap positive Task) (self other : addr)
    (ts to : Task) :
  h !! self = Some ts -> h !! other = Some to ->
  toBeStarted ts = None -> state to = TaskState.NEW ->
  exists k : gmap positive Task,
    starts h self (Some other) = Returned k /\
    exists t' : Task, k !! self = Some t' /\ toBeStarted t' = Some other.
Proof.
  intros Hs Ho Hfree Hnew. eexists. split; [by eapply starts_fresh|].
  rewrite lookup_alter_eq.
  destruct (decide (self = other)) as [-> | Hne].
  - rewrite !lookup_alter_eq, Ho. cbn. eauto.
  - rewrite !lookup_alter_ne by done. rewrite Hs. cbn. eauto.
Qed.

Lemma ends_declares_edge_of (h : gmap positive Task) (self other : addr)
    (ts to : Task) :
  h !! self = Some ts -> h !! other = Some to ->
  toBeEnded ts = None ->
  state to = TaskState.NEW \/ state to = TaskState.RUNNING ->
  exists k : gmap positive Task,
    ends h self (Some other) = Returned k /\
    exists t' : Task, k !! self = Some t' /\ toBeEnded t' = Some other.
Proof.
  intros Hs Ho Hfree Hst. eexists. split; [by eapply ends_fresh|].
  rewrite lookup_alter_eq.
  destruct (decide (self = other)) as [-> | Hne].
  - rewrite !lookup_alter_eq, Ho. cbn. eauto.
  - rewrite !lookup_alter_ne by done. rewrite Hs. cbn. eauto.
Qed.

(** C3: a task has at most one start edge and at most one end edge.  Once
    [toBeStarted] is set, every later [self.starts(other)] that meets the
    call's requirement on its target ([other] is [NULL] or a live task in
    state NEW) returns and leaves the whole store as it was, [toBeStarted] of
    [self] and [toStart] of [other] included; so when [self.starts(b)] is a
    declaration ([b] is not [NULL]), [self.starts(b)] followed by
    [self.starts(c)] leaves the store that [self.starts(b)] alone leaves.  The
    same holds of [ends], [toBeEnded], [toEnd] and targets in state NEW or
    RUNNING. *)
Theorem edges_declared_once (h : gmap positive Task) (self : addr) (ts : Task)
    (b c : option addr) :
  h !! self = Some ts ->
  (starts_accepts h c = true -> toBeStarted ts <> None ->
     starts h self c = Returned h) /\
  (starts_accepts h b = true -> starts_accepts h c = true -> b <> None ->
     (k ← starts h self b; starts k self c) = starts h self b) /\
  (ends_accepts h c = true -> toBeEnded ts <> None ->
     ends h self c = Returned h) /\
  (ends_accepts h b = true -> ends_accepts h c = true -> b <> None ->
     (k ← ends h self b; ends k self c) = ends h self b).
Proof.
  intros Hs. split; [|split; [|split]].
  - intros Hc Hset. by eapply starts_again.
  - intros Hb Hc Hnn. destruct b as [o|]; [|done]. clear Hnn.
    destruct (starts h self (Some o)) as [k| |] eqn:Hcall; [|done..].
    change (starts k self c = Returned k).
    assert (starts_accepts k c = true) as Hc'.
    { rewrite <- Hc. apply starts_accepts_state. intros a. by eapply starts_state. }
    destruct (toBeStarted ts) as [e|] eqn:Hedge.
    + assert (starts h self (Some o) = Returned h) as Hnop
        by (eapply starts_again; [done| |done]; by rewrite Hedge).
      rewrite Hnop in Hcall. injection Hcall as <-.
      eapply starts_again; [done| |done]. by rewrite Hedge.
    + cbn in Hb. destruct (h !! o) as [to|] eqn:Ho; [|done].
      apply Z.eqb_eq in Hb.
      destruct (starts_declares_edge_of h self o ts to Hs Ho Hedge Hb)
        as (k' & Hk' & t' & Ht' & Hset).
      rewrite Hk' in Hcall. injection Hcall as ->.
      eapply starts_again; [exact Ht'| by rewrite Hset |done].
  - intros Hc Hset. by eapply ends_again.
  - intros Hb Hc Hnn. destruct b as [o|]; [|done]. clear Hnn.
    destruct (ends h self (Some o)) as [k| |] eqn:Hcall; [|done..].
    change (ends k self c = Returned k).
    assert (ends_accepts k c = true) as Hc'.
    { rewrite <- Hc. apply ends_accepts_state. intros a. by eapply ends_state. }
    destruct (toBeEnded ts) as [e|] eqn:Hedge.
    + assert (ends h self (Some o) = Returned h) as Hnop
        by (eapply ends_again; [done| |done]; by rewrite Hedge).
      rewrite Hnop in Hcall. injection Hcall as <-.
      eapply ends_again; [done| |done]. by rewrite Hedge.
    + cbn in Hb. destruct (h !! o) as [to|] eqn:Ho; [|done].
      apply orb_true_iff in Hb. rewrite !Z.eqb_eq in Hb.
      destruct (ends_declares_edge_of h self o ts to Hs Ho Hedge Hb)
        as (k' & Hk' & t' & Ht' & Hset).
      rewrite Hk' in Hcall. injection Hcall as ->.
      eapply ends_again; [exact Ht'| by rewrite Hset |done].
Qed.

(** Witness of C3: on three fresh tasks the second declaration of task 1 is
    ignored, and once task 1 has both edges further declarations change
    nothing. *)
Lemma edges_declared_once_witness :
  ((k ← starts three_fresh 1%positive (Some 2%positive);
    starts k 1%positive (Some 3%positive))
   = starts three_fresh 1%positive (Some 2%positive)) /\
  ((k ← ends three_fresh 1%positive (Some 2%positive);
    ends k 1%positive (Some 3%positive))
   = ends three_fresh 1%positive (Some 2%positive)) /\
  starts both_linked 1%positive (Some 2%positive) = Returned both_linked /\
  ends both_linked 1%positive (Some 2%positive) = Returned both_linked.
Proof.
  destruct (edges_declared_once three_fresh 1%positive (Task_ctor (Some "root"))
              (Some 2%positive) (Some 3%positive) eq_refl)
    as (_ & Hstarts & _ & Hends).
  destruct (edges_declared_once both_linked 1%positive linked_task
              (Some 2%positive) (Some 2%positive) eq_refl)
    as (Hstarts' & _ & Hends' & _).
  split; [|split; [|split]].
  - apply Hstarts; [reflexivity | reflexivity | discriminate].
  - apply Hends; [reflexivity | reflexivity | discriminate].
  - apply Hstarts'; [reflexivity | discriminate].
  - apply Hends'; [reflexivity | discriminate].
Defined.

(** Outside the requirements of the calls.  A READY target of [starts], or a
    DONE target of [ends], does not meet the requirement on the target's
    state: the assertion of the debug build, which comes before the test of
    the edge, fails also when the caller's edge is set.  And [starts(NULL)]
    declares nothing, so the [starts] that follows it is a first declaration
    and sets the edge. *)
Lemma declaration_outside_requirements :
  toBeStarted <$> linked_ready !! 1%positive = Some (Some 3%positive) /\
  starts linked_ready 1%positive (Some 2%positive) = AssertFailed /\
  starts linked_ready 1%positive (Some 2%positive) <> Returned linked_ready /\
  toBeEnded <$> linked_done !! 1%positive = Some (Some 3%positive) /\
  ends linked_done 1%positive (Some 2%positive) = AssertFailed /\
  ends linked_done 1%positive (Some 2%positive) <> Returned linked_done /\
  (k ← starts three_fresh 1%positive None; starts k 1%positive (Some 2%positive))
    <> starts three_fresh 1%positive None /\
  (k ← ends three_fresh 1%positive None; ends k 1%positive (Some 2%positive))
    <> ends three_fresh 1%positive None.
Proof.
  repeat split; try reflexivity; discriminate.
Qed.

(** C4, as amended: the assertions of [starts] and [ends] read the state of
    the target [other], never that of the caller.  Whatever the caller's
    state, [self.starts(other)] on a live [other] fails its assertion exactly
    when [other] is not in state NEW, and [self.ends(other)] fails exactly
    when [other] is neither in state NEW nor in state RUNNING. *)
Theorem edge_assertions_read_target (h : gmap positive Task) (self other : addr)
    (ts to : Task) :
  h !! self = Some ts -> h !! other = Some to ->
  (starts h self (Some other) = AssertFailed <-> state to <> TaskState.NEW) /\
  (ends h self (Some other) = AssertFailed <->
     state to <> TaskState.NEW /\ state to <> TaskState.RUNNING).
Proof.
  intros Hs Ho. unfold starts, ends, deref. rewrite Ho. cbn.
  split.
  - destruct (Z.eqb_spec (state to) TaskState.NEW) as [Hnew | Hnew]; cbn.
    + rewrite Hs. cbn. split; [|done]. by case_bool_decide.
    + done.
  - destruct (Z.eqb_spec (state to) TaskState.NEW) as [Hnew | Hnew],
      (Z.eqb_spec (state to) TaskState.RUNNING) as [Hrun | Hrun]; cbn;
      rewrite ?Hs; cbn; try (split; [by case_bool_decide | by intros []]).
    done.
Qed.

(** Witness of C4: task 1 is done and task 2 ready; the call fails on account
    of task 2. *)
Lemma edge_assertions_read_target_witness :
  (starts done_and_ready 1%positive (Some 2%positive) = AssertFailed <->
     state (with_state TaskState.READY (Task_ctor None)) <> TaskState.NEW) /\
  (ends done_and_ready 1%positive (Some 2%positive) = AssertFailed <->
     state (with_state TaskState.READY (Task_ctor None)) <> TaskState.NEW /\
     state (with_state TaskState.READY (Task_ctor None)) <> TaskState.RUNNING).
Proof.
  apply (edge_assertions_read_target done_and_ready 1%positive 2%positive
           (with_state TaskState.DONE (Task_ctor (Some "root")))
           (with_state TaskState.READY (Task_ctor None))); reflexivity.
Defined.

(** C4 as stated fails: task 1 is DONE, not NEW, and yet both of its calls
    on the fresh task 2 pass the assertion and declare the edge. *)
Lemma caller_state_not_asserted :
  state <$> first_done !! 1%positive = Some TaskState.DONE /\
  TaskState.DONE <> TaskState.NEW /\
  starts first_done 1%positive (Some 2%positive) <> AssertFailed /\
  ends first_done 1%positive (Some 2%positive) <> AssertFailed /\
  toBeStarted <$> store_of (starts first_done 1%positive (Some 2%positive)) !! 1%positive
    = Some (Some 2%positive) /\
  toBeEnded <$> store_of (ends first_done 1%positive (Some 2%positive)) !! 1%positive
    = Some (Some 2%positive).
Proof. repeat split; try reflexivity; discriminate. Qed.

(** ** Priority and affinity *)

(** The setters on a task in state NEW. *)
Lemma setPriority_NEW (h : gmap positive Task) (this : addr) (t : Task) (v : Z) :
  h !! this = Some t -> state t = TaskState.NEW ->
  setPriority h this v = Returned (<[this := set_priority (uint16 v) t]> h).
Proof.
  intros Ht Hst. unfold setPriority, deref. rewrite Ht. cbn. rewrite Hst. cbn.
  f_equal. apply map_eq. intros a. rewrite lookup_alter, lookup_insert.
  case_decide; subst; by rewrite ?Ht.
Qed.

Lemma setAffinity_NEW (h : gmap positive Task) (this : addr) (t : Task) (v : Z) :
  h !! this = Some t -> state t = TaskState.NEW ->
  setAffinity h this v = Returned (<[this := set_affinity (uint16 v) t]> h).
Proof.
  intros Ht Hst. unfold setAffinity, deref. rewrite Ht. cbn. rewrite Hst. cbn.
  f_equal. apply map_eq. intros a. rewrite lookup_alter, lookup_insert.
  case_decide; subst; by rewrite ?Ht.
Qed.

(** C6: on a live task whose state is not NEW, [setPriority] and
    [setAffinity] fail their assertion; on a task in state NEW they return
    and the member holds the argument as a [uint16], which is the argument
    itself for every 16 bit value. *)
Theorem setters_assert_NEW (h : gmap positive Task) (this : addr) (t : Task) (v : Z) :
  h !! this = Some t ->
  (state t <> TaskState.NEW ->
     setPriority h this v = AssertFailed /\ setAffinity h this v = AssertFailed) /\
  (state t = TaskState.NEW ->
     setPriority h this v = Returned (<[this := set_priority (uint16 v) t]> h) /\
     setAffinity h this v = Returned (<[this := set_affinity (uint16 v) t]> h) /\
     priority (set_priority (uint16 v) t) = uint16 v /\
     affinity (set_affinity (uint16 v) t) = uint16 v /\
     (0 <= v < 65536 -> uint16 v = v)).
Proof.
  intros Ht. split.
  - intros Hst. apply Z.eqb_neq in Hst.
    unfold setPriority, setAffinity, deref. rewrite Ht. cbn. by rewrite Hst.
  - intros Hst. split; [by apply setPriority_NEW|].
    split; [by apply setAffinity_NEW|].
    repeat split. apply uint16_id.
Qed.

(** Witness of C6: the setters on the ready task 2 and on the fresh task 3. *)
Lemma setters_assert_NEW_witness :
  (setPriority second_ready 2%positive TaskPriority.HIGH = AssertFailed /\
   setAffinity second_ready 2%positive 5 = AssertFailed) /\
  (setPriority second_ready 3%positive TaskPriority.HIGH
     = Returned (<[3%positive := set_priority (uint16 TaskPriority.HIGH)
                                   (Task_ctor (Some "sink"))]> second_ready) /\
   setAffinity second_ready 3%positive TaskPriority.HIGH
     = Returned (<[3%positive := set_affinity (uint16 TaskPriority.HIGH)
                                   (Task_ctor (Some "sink"))]> second_ready)).
Proof.
  destruct (setters_assert_NEW second_ready 2%positive
              (with_state TaskState.READY (Task_ctor None)) TaskPriority.HIGH eq_refl)
    as (Hprio & _).
  destruct (setters_assert_NEW second_ready 2%positive
              (with_state TaskState.READY (Task_ctor None)) 5 eq_refl)
    as (Haffi & _).
  destruct (setters_assert_NEW second_ready 3%positive
              (Task_ctor (Some "sink")) TaskPriority.HIGH eq_refl)
    as (_ & Hnew).
  split; [split|].
  - apply Hprio. discriminate.
  - apply Haffi. discriminate.
  - destruct (Hnew eq_refl) as (Hp & Ha & _). split; [exact Hp | exact Ha].
Defined.

(** C10: on a live task in state NEW and for a 16 bit value [v], the getter
    called right after the setter returns [v]; [setPriority] leaves every
    member of the task but [priority] as it was, [setAffinity] every member
    but [affinity], and no other task is touched. *)
Theorem getters_after_setters (h : gmap positive Task) (this : addr) (t : Task) (v : Z) :
  h !! this = Some t -> state t = TaskState.NEW -> 0 <= v < 65536 ->
  (exists (h' : gmap positive Task) (t' : Task),
     setPriority h this v = Returned h' /\
     getPriority h' this = Returned v /\
     h' !! this = Some t' /\
     refCounter t' = refCounter t /\ toBeEnded t' = toBeEnded t /\
     toBeStarted t' = toBeStarted t /\ name t' = name t /\
     toStart t' = toStart t /\ toEnd t' = toEnd t /\
     affinity t' = affinity t /\ state t' = state t /\
     (forall a : addr, a <> this -> h' !! a = h !! a)) /\
  (exists (h' : gmap positive Task) (t' : Task),
     setAffinity h this v = Returned h' /\
     getAffinity h' this = Returned v /\
     h' !! this = Some t' /\
     refCounter t' = refCounter t /\ toBeEnded t' = toBeEnded t /\
     toBeStarted t' = toBeStarted t /\ name t' = name t /\
     toStart t' = toStart t /\ toEnd t' = toEnd t /\
     priority t' = priority t /\ state t' = state t /\
     (forall a : addr, a <> this -> h' !! a = h !! a)).
Proof.
  intros Ht Hnew Hv.
  pose proof (setPriority_NEW h this t v Ht Hnew) as Hp.
  pose proof (setAffinity_NEW h this t v Ht Hnew) as Ha.
  rewrite (uint16_id v Hv) in Hp, Ha.
  split.
  - exists (<[this := set_priority v t]> h), (set_priority v t).
    split; [done|]. unfold getPriority, deref. rewrite lookup_insert_eq. cbn.
    repeat split. intros a Hne. by rewrite lookup_insert_ne.
  - exists (<[this := set_affinity v t]> h), (set_affinity v t).
    split; [done|]. unfold getAffinity, deref. rewrite lookup_insert_eq. cbn.
    repeat split. intros a Hne. by rewrite lookup_insert_ne.
Qed.

(** Witness of C10: priority LOW and affinity 7 on the fresh task 2. *)
Lemma getters_after_setters_witness :
  (exists h' : gmap positive Task,
     setPriority three_fresh 2%positive TaskPriority.LOW = Returned h' /\
     getPriority h' 2%positive = Returned TaskPriority.LOW) /\
  (exists h' : gmap positive Task,
     setAffinity three_fresh 2%positive 7 = Returned h' /\
     getAffinity h' 2%positive = Returned 7).
Proof.
  destruct (getters_after_setters three_fresh 2%positive (Task_ctor None)
              TaskPriority.LOW)
    as ((hp & tp & Hset & Hget & _) & _);
    [reflexivity | reflexivity | unfold TaskPriority.LOW; lia |].
  destruct (getters_after_setters three_fresh 2%positive (Task_ctor None) 7)
    as (_ & (ha & ta & Hset' & Hget' & _));
    [reflexivity | reflexivity | lia |].
  split; [exists hp | exists ha]; split; assumption.
Defined.

(** ** The encodings *)

Lemma scan_prefers_front (q : Scheduler.QueueSet) (bs : list Z) (b : Z) (t : addr) :
  Scheduler.scan q bs = Some (b, t) ->
  exists before after : list Z,
    bs = before ++ b :: after /\
    Forall (fun b' => Scheduler.fifo q b' = [] /\ Scheduler.deque q b' = []) before.
Proof.
  induction bs as [|b0 bs IH]; [done|]. cbn.
  destruct (Scheduler.fifo q b0) as [|t0 ?] eqn:Hfifo;
    [destruct (Scheduler.deque q b0) as [|t0 ?] eqn:Hdeque|].
  - intros Hscan. destruct (IH Hscan) as (before & after & -> & Hempty).
    exists (b0 :: before), after. split; [done|]. by constructor.
  - intros [= <- <-]. by exists [], bs.
  - intros [= <- <-]. by exists [], bs.
Qed.

(** C7: the bands are encoded CRITICAL = 0, HIGH = 1, NORMAL = 2, LOW = 3,
    four in all, and a lower number is a higher priority: the band a worker
    picks from is one of the four, and every band with a smaller number is
    empty at that worker.  An affinity of 0xFFFF, the constructor's default,
    sends a ready task to the calling worker's own work-stealing deque,
    whichever worker that is; any other affinity is the index of the worker
    whose affinity FIFO the task goes to. *)
Theorem band_and_affinity_encoding :
  (TaskPriority.CRITICAL = 0 /\ TaskPriority.HIGH = 1 /\
   TaskPriority.NORMAL = 2 /\ TaskPriority.LOW = 3 /\ TaskPriority.NUM = 4) /\
  (forall b : Z, In b Scheduler.bands <-> 0 <= b < TaskPriority.NUM) /\
  (forall (q : Scheduler.QueueSet) (b : Z) (t : addr),
     Scheduler.pick_local q = Some (b, t) ->
     In b Scheduler.bands /\
     forall b' : Z, 0 <= b' < b ->
       Scheduler.fifo q b' = [] /\ Scheduler.deque q b' = []) /\
  (forall taskName : option string,
     affinity (Task_ctor taskName) = 0xFFFF /\ Scheduler.ANY = 0xFFFF) /\
  (forall (t : Task) (w : Z),
     affinity t = 0xFFFF ->
     Scheduler.enqueue_target t w = Scheduler.WorkStealingDeque w (priority t)) /\
  (forall (t : Task) (w : Z),
     affinity t <> 0xFFFF ->
     Scheduler.enqueue_target t w = Scheduler.AffinityFifo (affinity t) (priority t)).
Proof.
  assert (forall b : Z, In b Scheduler.bands <-> 0 <= b < TaskPriority.NUM) as Hbands.
  { intros b. unfold Scheduler.bands, TaskPriority.CRITICAL, TaskPriority.HIGH,
      TaskPriority.NORMAL, TaskPriority.LOW, TaskPriority.NUM. cbn. lia. }
  split; [by repeat split|]. split; [exact Hbands|]. split; [|split; [|split]].
  - intros q b t Hpick. unfold Scheduler.pick_local in Hpick.
    destruct (scan_prefers_front q _ b t Hpick) as (before & after & Hsplit & Hempty).
    assert (In b Scheduler.bands) as Hin by (rewrite Hsplit; apply in_elt).
    split; [exact Hin|]. intros b' Hb'.
    rewrite Forall_forall in Hempty. apply Hempty. apply list_elem_of_In.
    revert Hsplit Hb'. clear. unfold Scheduler.bands, TaskPriority.CRITICAL,
      TaskPriority.HIGH, TaskPriority.NORMAL, TaskPriority.LOW.
    intros Hsplit Hb'.
    destruct before as [|x0 [|x1 [|x2 [|x3 [|x4 ?]]]]]; simplify_eq/=; lia.
  - done.
  - intros t w Hany. unfold Scheduler.enqueue_target, Scheduler.ANY.
    rewrite Hany. reflexivity.
  - intros t w Hidx. unfold Scheduler.enqueue_target, Scheduler.ANY.
    apply Z.eqb_neq in Hidx. rewrite Hidx. cbn.
    destruct (Z.eqb_spec (affinity t) w) as [-> | Hw]; reflexivity.
Qed.

(** Witness of C7: the sample worker holds a LOW task and a HIGH task and
    picks the HIGH one, the CRITICAL band being empty; a fresh task goes to
    the deque of the worker that readies it, a task with affinity 2 to the
    FIFO of worker 2. *)
Lemma band_and_affinity_encoding_witness :
  Scheduler.pick_local sample_queues = Some (TaskPriority.HIGH, 2%positive) /\
  Scheduler.fifo sample_queues TaskPriority.CRITICAL = [] /\
  Scheduler.deque sample_queues TaskPriority.CRITICAL = [] /\
  Scheduler.enqueue_target (Task_ctor None) 5
    = Scheduler.WorkStealingDeque 5 TaskPriority.NORMAL /\
  Scheduler.enqueue_target (set_affinity 2 (Task_ctor None)) 5
    = Scheduler.AffinityFifo 2 TaskPriority.NORMAL.
Proof.
  destruct band_and_affinity_encoding as (_ & _ & Hpick & _ & Hany & Hidx).
  split; [reflexivity|].
  destruct (Hpick sample_queues TaskPriority.HIGH 2%positive eq_refl) as (_ & Hempty).
  destruct (Hempty TaskPriority.CRITICAL) as (Hfifo & Hdeque);
    [unfold TaskPriority.CRITICAL, TaskPriority.HIGH; lia|].
  split; [exact Hfifo|]. split; [exact Hdeque|].
  split; [apply Hany; reflexivity | apply Hidx; discriminate].
Defined.

(** ** Calls one after the other *)

(** A declaration as a condition to return and a store it leaves. *)
Lemma declare_spec (e : edge) (h k : gmap positive Task) (self : addr)
    (other : option addr) :
  declare e h self other = Returned k <->
  returns e h self other = true /\ k = effect e h self other.
Proof.
  unfold returns, effect, fires.
  destruct e; cbn; unfold starts, ends, deref;
    (destruct other as [o|]; cbn; [|naive_solver]);
    (destruct (h !! o) as [to|] eqn:Ho; cbn; [|naive_solver]).
  - destruct (state to =? TaskState.NEW) eqn:Hc; cbn; [|naive_solver].
    destruct (h !! self) as [me|] eqn:Hs; cbn.
    + destruct (toBeStarted me); repeat case_bool_decide; naive_solver.
    + naive_solver.
  - destruct ((state to =? TaskState.NEW) || (state to =? TaskState.RUNNING)) eqn:Hc;
      cbn; [|naive_solver].
    destruct (h !! self) as [me|] eqn:Hs; cbn.
    + destruct (toBeEnded me); repeat case_bool_decide; naive_solver.
    + naive_solver.
Qed.

(** Reading a task after the three writes. *)
Lemma lookup_declared (e : edge) (h : gmap positive Task) (self o x : addr) :
  declared e h self o !! x =
    (fun t => (if decide (self = x) then link e o else id)
                ((if decide (o = x) then fun u => RefCount.refInc (bump e u) else id) t))
      <$> h !! x.
Proof.
  unfold declared, Ref.acquire. rewrite !lookup_alter.
  repeat case_decide; subst; by destruct (h !! x).
Qed.

Lemma elem_of_preds (e : edge) (h : gmap positive Task) (a x : addr) :
  x ∈ preds e h a <-> edge_of e <$> h !! x = Some (Some a).
Proof.
  unfold preds. rewrite elem_of_dom. unfold is_Some.
  setoid_rewrite map_lookup_filter_Some. cbn. split.
  - intros (t & -> & He). cbn. by rewrite He.
  - destruct (h !! x) as [t|] eqn:Ht; cbn; intros [= He]; eauto.
Qed.

(** Closes a goal about one member of one task after the three writes. *)
Ltac member_of_declared h x :=
  rewrite ?lookup_declared; repeat case_decide; subst;
  destruct (h !! x) as [[]|]; cbn in *; try done; try congruence.

(** The members a declaration leaves alone. *)
Lemma effect_frame (e : edge) (h : gmap positive Task) (self : addr)
    (other : option addr) (x : addr) :
  state <$> effect e h self other !! x = state <$> h !! x /\
  name <$> effect e h self other !! x = name <$> h !! x /\
  priority <$> effect e h self other !! x = priority <$> h !! x /\
  affinity <$> effect e h self other !! x = affinity <$> h !! x.
Proof.
  unfold effect. destruct other as [o|]; [|done].
  destruct (fires e h self); [|done].
  destruct e; repeat split; member_of_declared h x.
Qed.

Lemma effect_edge (e e' : edge) (h : gmap positive Task) (self : addr)
    (other : option addr) (x : addr) :
  e' <> e \/ x <> self ->
  edge_of e' <$> effect e h self other !! x = edge_of e' <$> h !! x.
Proof.
  intros Hother. unfold effect. destruct other as [o|]; [|done].
  destruct (fires e h self); [|done].
  destruct e, e'; member_of_declared h x; naive_solver.
Qed.

Lemma effect_counter (e e' : edge) (h : gmap positive Task) (self : addr)
    (other : option addr) (x : addr) :
  e' <> e \/ other <> Some x ->
  counter_of e' <$> effect e h self other !! x = counter_of e' <$> h !! x.
Proof.
  intros Hother. unfold effect. destruct other as [o|]; [|done].
  destruct (fires e h self); [|done].
  destruct e, e'; member_of_declared h x; naive_solver.
Qed.

Lemma effect_elsewhere (e : edge) (h : gmap positive Task) (self : addr)
    (other : option addr) (x : addr) :
  x <> self -> other <> Some x -> effect e h self other !! x = h !! x.
Proof.
  intros Hself Hother. unfold effect. destruct other as [o|]; [|done].
  destruct (fires e h self); [|done].
  rewrite lookup_declared. repeat case_decide; subst; try done.
  by destruct (h !! x).
Qed.

(** An edge that is set stays as it is. *)
Lemma effect_edge_kept (e e' : edge) (h : gmap positive Task) (self : addr)
    (other : option addr) (x a : addr) :
  edge_of e' <$> h !! x = Some (Some a) ->
  edge_of e' <$> effect e h self other !! x = Some (Some a).
Proof.
  intros Hset. unfold effect. destruct other as [o|]; [|done].
  unfold fires. destruct (h !! self) as [me|] eqn:Hs; [|done].
  case_bool_decide as Hfree; [|done].
  destruct (decide (e' = e /\ x = self)) as [[-> ->] | Hne].
  - rewrite Hs in Hset. cbn in Hset. congruence.
  - pose proof (effect_edge e e' h self (Some o) x) as Hsame.
    unfold effect, fires in Hsame. rewrite Hs in Hsame.
    rewrite bool_decide_eq_true_2 in Hsame by done.
    rewrite Hsame; [done|]. destruct (decide (e' = e)); naive_solver.
Qed.

(** X1: a call of [starts] that returns leaves the state, name, priority,
    affinity, end counter and end edge of every task as they were; it leaves
    the start edge of every task but the caller, and the start counter of
    every task but the target; a task that is neither is left whole. *)
Theorem starts_frame (h k : gmap positive Task) (self : addr) (other : option addr)
    (x : addr) :
  starts h self other = Returned k ->
  state <$> k !! x = state <$> h !! x /\
  name <$> k !! x = name <$> h !! x /\
  priority <$> k !! x = priority <$> h !! x /\
  affinity <$> k !! x = affinity <$> h !! x /\
  toEnd <$> k !! x = toEnd <$> h !! x /\
  toBeEnded <$> k !! x = toBeEnded <$> h !! x /\
  (x <> self -> toBeStarted <$> k !! x = toBeStarted <$> h !! x) /\
  (other <> Some x -> toStart <$> k !! x = toStart <$> h !! x) /\
  (x <> self -> other <> Some x -> k !! x = h !! x).
Proof.
  intros Hcall. apply (declare_spec StartEdge) in Hcall as [_ ->].
  destruct (effect_frame StartEdge h self other x) as (Hst & Hname & Hprio & Haffi).
  repeat split; try done.
  - apply (effect_counter StartEdge EndEdge). by left.
  - apply (effect_edge StartEdge EndEdge). by left.
  - intros Hx. apply (effect_edge StartEdge StartEdge). by right.
  - intros Hx. apply (effect_counter StartEdge StartEdge). by right.
  - apply effect_elsewhere.
Qed.

(** Witness of X1: task 1 declares a start edge to task 2; seen from task 3. *)
Lemma starts_frame_witness :
  state <$> store_of (starts three_fresh 1%positive (Some 2%positive)) !! 3%positive
    = state <$> three_fresh !! 3%positive /\
  store_of (starts three_fresh 1%positive (Some 2%positive)) !! 3%positive
    = three_fresh !! 3%positive.
Proof.
  destruct (starts_frame three_fresh
              (store_of (starts three_fresh 1%positive (Some 2%positive)))
              1%positive (Some 2%positive) 3%positive eq_refl)
    as (Hst & _ & _ & _ & _ & _ & _ & _ & Hwhole).
  split; [exact Hst | apply Hwhole; discriminate].
Defined.

(** X2: a call of [ends] that returns leaves the state, name, priority,
    affinity, start counter and start edge of every task as they were; it
    leaves the end edge of every task but the caller, and the end counter of
    every task but the target; a task that is neither is left whole. *)
Theorem ends_frame (h k : gmap positive Task) (self : addr) (other : option addr)
    (x : addr) :
  ends h self other = Returned k ->
  state <$> k !! x = state <$> h !! x /\
  name <$> k !! x = name <$> h !! x /\
  priority <$> k !! x = priority <$> h !! x /\
  affinity <$> k !! x = affinity <$> h !! x /\
  toStart <$> k !! x = toStart <$> h !! x /\
  toBeStarted <$> k !! x = toBeStarted <$> h !! x /\
  (x <> self -> toBeEnded <$> k !! x = toBeEnded <$> h !! x) /\
  (other <> Some x -> toEnd <$> k !! x = toEnd <$> h !! x) /\
  (x <> self -> other <> Some x -> k !! x = h !! x).
Proof.
  intros Hcall. apply (declare_spec EndEdge) in Hcall as [_ ->].
  destruct (effect_frame EndEdge h self other x) as (Hst & Hname & Hprio & Haffi).
  repeat split; try done.
  - apply (effect_counter EndEdge StartEdge). by left.
  - apply (effect_edge EndEdge StartEdge). by left.
  - intros Hx. apply (effect_edge EndEdge EndEdge). by right.
  - intros Hx. apply (effect_counter EndEdge EndEdge). by right.
  - apply effect_elsewhere.
Qed.

(** Witness of X2: task 1 declares an end edge to the running task 2; seen
    from task 3. *)
Lemma ends_frame_witness :
  state <$> store_of (ends second_running 1%positive (Some 2%positive)) !! 3%positive
    = state <$> second_running !! 3%positive /\
  store_of (ends second_running 1%positive (Some 2%positive)) !! 3%positive
    = second_running !! 3%positive.
Proof.
  destruct (ends_frame second_running
              (store_of (ends second_running 1%positive (Some 2%positive)))
              1%positive (Some 2%positive) 3%positive eq_refl)
    as (Hst & _ & _ & _ & _ & _ & _ & _ & Hwhole).
  split; [exact Hst | apply Hwhole; discriminate].
Defined.

(** Whether a declaration returns depends on the states only, and whether it
    writes on the caller's edge only. *)
Lemma returns_ext (e : edge) (h k : gmap positive Task) (self : addr)
    (other : option addr) :
  (forall a : addr, state <$> k !! a = state <$> h !! a) ->
  returns e k self other = returns e h self other.
Proof.
  intros Hst. unfold returns. f_equal.
  - destruct e; cbn; [by apply starts_accepts_state | by apply ends_accepts_state].
  - destruct other as [o|]; [|done]. apply bool_decide_ext.
    rewrite <- !(fmap_is_Some state). by rewrite Hst.
Qed.

Lemma fires_ext (e : edge) (h k : gmap positive Task) (self : addr) :
  edge_of e <$> k !! self = edge_of e <$> h !! self ->
  fires e k self = fires e h self.
Proof.
  unfold fires. destruct (k !! self) as [tk|], (h !! self) as [th|]; cbn; try done.
  intros [= Heq]. by rewrite Heq.
Qed.

Lemma effect_state (e : edge) (h : gmap positive Task) (self : addr)
    (other : option addr) (a : addr) :
  state <$> effect e h self other !! a = state <$> h !! a.
Proof. apply effect_frame. Qed.

(** After a declaration that returned, the same declaration writes nothing. *)
Lemma effect_twice (e : edge) (h : gmap positive Task) (self : addr)
    (other : option addr) :
  effect e (effect e h self other) self other = effect e h self other.
Proof.
  destruct other as [o|]; [|done]. cbn.
  unfold fires at 1 2. destruct (h !! self) as [me|] eqn:Hs.
  - case_bool_decide as Hfree; [|by rewrite Hs, bool_decide_eq_false_2].
    rewrite lookup_declared, Hs. cbn. rewrite decide_True by done.
    rewrite bool_decide_eq_false_2; [done|].
    destruct e; case_decide; cbn; done.
  - by rewrite Hs.
Qed.

(** X3: declaring the same edge twice is the same as declaring it once:
    [self.starts(other)] called twice has the outcome of one call, whatever
    the store, the caller and the target, and likewise [self.ends(other)]. *)
Theorem edge_declaration_idempotent (h : gmap positive Task) (self : addr)
    (other : option addr) :
  (k ← starts h self other; starts k self other) = starts h self other /\
  (k ← ends h self other; ends k self other) = ends h self other.
Proof.
  assert (forall e : edge,
            (k ← declare e h self other; declare e k self other)
            = declare e h self other) as Hboth.
  { intros e. destruct (declare e h self other) as [k| |] eqn:Hcall; [|done..].
    change (declare e k self other = Returned k).
    apply declare_spec in Hcall as [Hret ->]. apply declare_spec. split.
    - rewrite <- Hret. apply returns_ext. intros a. apply effect_state.
    - by rewrite effect_twice. }
  split; [exact (Hboth StartEdge) | exact (Hboth EndEdge)].
Qed.

(** The writes of two declarations that differ in the caller or in the kind
    of edge can be done in either order. *)
Lemma declared_commute (e1 e2 : edge) (h : gmap positive Task) (s1 s2 a b : addr) :
  e1 <> e2 \/ s1 <> s2 ->
  declared e2 (declared e1 h s1 a) s2 b = declared e1 (declared e2 h s2 b) s1 a.
Proof.
  intros Hne. apply map_eq. intros x. rewrite !lookup_declared.
  destruct (h !! x) as [t|]; [|done]. cbn. f_equal.
  destruct e1, e2, t; repeat case_decide; subst; cbn; try reflexivity;
    exfalso; naive_solver.
Qed.

Lemma effect_commute (e1 e2 : edge) (h : gmap positive Task) (s1 s2 : addr)
    (o1 o2 : option addr) :
  e1 <> e2 \/ s1 <> s2 ->
  effect e2 (effect e1 h s1 o1) s2 o2 = effect e1 (effect e2 h s2 o2) s1 o1.
Proof.
  intros Hne. destruct o1 as [a|], o2 as [b|]; try done.
  unfold effect at 1 3.
  rewrite (fires_ext e2 h) by (apply effect_edge; naive_solver).
  rewrite (fires_ext e1 h) by (apply effect_edge; naive_solver).
  cbn. destruct (fires e1 h s1), (fires e2 h s2); try done.
  by apply declared_commute.
Qed.

Lemma declare_commute (e1 e2 : edge) (h k : gmap positive Task) (s1 s2 : addr)
    (o1 o2 : option addr) :
  e1 <> e2 \/ s1 <> s2 ->
  (k1 ← declare e1 h s1 o1; declare e2 k1 s2 o2) = Returned k ->
  (k2 ← declare e2 h s2 o2; declare e1 k2 s1 o1) = Returned k.
Proof.
  intros Hne Hseq.
  destruct (declare e1 h s1 o1) as [k1| |] eqn:Hfirst; [|done..].
  change (declare e2 k1 s2 o2 = Returned k) in Hseq.
  apply declare_spec in Hfirst as [Hret1 ->]. apply declare_spec in Hseq as [Hret2 ->].
  rewrite (returns_ext e2 h) in Hret2 by (intros a; apply effect_state).
  assert (declare e2 h s2 o2 = Returned (effect e2 h s2 o2)) as ->
    by (by apply declare_spec).
  change (declare e1 (effect e2 h s2 o2) s1 o1
          = Returned (effect e2 (effect e1 h s1 o1) s2 o2)).
  apply declare_spec. split.
  - rewrite <- Hret1. apply returns_ext. intros a. apply effect_state.
  - by apply effect_commute.
Qed.

(** X4: edge declarations commute.  When two calls of [starts] by different
    tasks, two calls of [ends] by different tasks, or a call of [starts] and
    a call of [ends] by any tasks, all return in one order, they return in
    the other order too and leave the same store. *)
Theorem edge_declarations_commute (h k : gmap positive Task) (s1 s2 : addr)
    (o1 o2 : option addr) :
  (s1 <> s2 ->
   (k1 ← starts h s1 o1; starts k1 s2 o2) = Returned k ->
   (k2 ← starts h s2 o2; starts k2 s1 o1) = Returned k) /\
  (s1 <> s2 ->
   (k1 ← ends h s1 o1; ends k1 s2 o2) = Returned k ->
   (k2 ← ends h s2 o2; ends k2 s1 o1) = Returned k) /\
  ((k1 ← starts h s1 o1; ends k1 s2 o2) = Returned k <->
   (k2 ← ends h s2 o2; starts k2 s1 o1) = Returned k).
Proof.
  split; [|split; [|split]].
  - intros Hne. apply (declare_commute StartEdge StartEdge). by right.
  - intros Hne. apply (declare_commute EndEdge EndEdge). by right.
  - apply (declare_commute StartEdge EndEdge). by left.
  - apply (declare_commute EndEdge StartEdge). by left.
Qed.

(** Witness of X4: tasks 1 and 2 both declare a start edge to task 3. *)
Lemma edge_declarations_commute_witness :
  (k2 ← starts three_fresh 2%positive (Some 3%positive);
   starts k2 1%positive (Some 3%positive))
  = Returned (store_of (k1 ← starts three_fresh 1%positive (Some 3%positive);
                        starts k1 2%positive (Some 3%positive))).
Proof.
  destruct (edge_declarations_commute three_fresh
              (store_of (k1 ← starts three_fresh 1%positive (Some 3%positive);
                         starts k1 2%positive (Some 3%positive)))
              1%positive 2%positive (Some 3%positive) (Some 3%positive))
    as (Hstarts & _).
  apply Hstarts; [discriminate | reflexivity].
Defined.

(** ** Setters one after the other *)

(** A call as a condition to return and a store it leaves. *)
Lemma do_call_spec (h k : gmap positive Task) (c : call) :
  do_call h c = Returned k <-> call_returns h c = true /\ k = call_effect h c.
Proof.
  destruct c as [this other | this other | this prio | this affi]; cbn.
  - apply (declare_spec StartEdge).
  - apply (declare_spec EndEdge).
  - unfold setPriority, deref. destruct (h !! this) as [t|]; cbn; [|by split; [|intros []]].
    destruct (state t =? TaskState.NEW); cbn; [|by split; [|intros []]].
    split; [by intros [= <-] | by intros [_ ->]].
  - unfold setAffinity, deref. destruct (h !! this) as [t|]; cbn; [|by split; [|intros []]].
    destruct (state t =? TaskState.NEW); cbn; [|by split; [|intros []]].
    split; [by intros [= <-] | by intros [_ ->]].
Qed.

(** No call changes the state or the name of a task. *)
Lemma call_effect_state (h : gmap positive Task) (c : call) (a : addr) :
  state <$> call_effect h c !! a = state <$> h !! a /\
  name <$> call_effect h c !! a = name <$> h !! a.
Proof.
  destruct c as [this other | this other | this prio | this affi]; cbn.
  - split; apply (effect_frame StartEdge).
  - split; apply (effect_frame EndEdge).
  - rewrite lookup_alter. case_decide; subst; by destruct (h !! a).
  - rewrite lookup_alter. case_decide; subst; by destruct (h !! a).
Qed.

Lemma call_returns_ext (h k : gmap positive Task) (c : call) :
  (forall a : addr, state <$> k !! a = state <$> h !! a) ->
  call_returns k c = call_returns h c.
Proof.
  intros Hst. destruct c as [this other | this other | this prio | this affi]; cbn;
    try by apply returns_ext.
  all: specialize (Hst this);
    destruct (k !! this) as [tk|], (h !! this) as [th|]; cbn in Hst; try done;
    by injection Hst as ->.
Qed.

(** X5: of two calls of the same setter on the same task the last one wins:
    [setPriority(v1)] followed by [setPriority(v2)] has the outcome of
    [setPriority(v2)] alone, failures included, and likewise
    [setAffinity]. *)
Theorem setter_last_write_wins (h : gmap positive Task) (this : addr) (v1 v2 : Z) :
  (k ← setPriority h this v1; setPriority k this v2) = setPriority h this v2 /\
  (k ← setAffinity h this v1; setAffinity k this v2) = setAffinity h this v2.
Proof.
  unfold setPriority, setAffinity, deref.
  destruct (h !! this) as [t|] eqn:Ht; cbn; [|done].
  destruct (state t =? TaskState.NEW) eqn:Hst; cbn; [|done].
  rewrite !lookup_alter_eq, Ht. cbn. rewrite Hst. cbn.
  split; f_equal; apply map_eq; intros x; rewrite !lookup_alter;
    clear Ht; repeat (case_decide; subst); try done; destruct (h !! x); reflexivity.
Qed.

(** The writes of two calls on different members or of different callers can
    be done in either order. *)
Lemma call_effect_commute (h : gmap positive Task) (c1 c2 : call) :
  writes c1 <> writes c2 ->
  call_effect (call_effect h c1) c2 = call_effect (call_effect h c2) c1.
Proof.
  assert (forall (e : edge) (f : Task -> Task) (t s : addr) (o : option addr),
            (forall u : Task, edge_of e (f u) = edge_of e u) ->
            (forall (u : Task) (a : addr), f (link e a u) = link e a (f u)) ->
            (forall u : Task,
               f (RefCount.refInc (bump e u)) = RefCount.refInc (bump e (f u))) ->
            effect e (alter f t h) s o = alter f t (effect e h s o)) as Hmixed.
  { intros e f t s o Hedge Hlink Hbump. destruct o as [a|]; [|done]. cbn.
    rewrite (fires_ext e h).
    2:{ rewrite lookup_alter. case_decide; [|done]. subst.
        destruct (h !! s); cbn; by rewrite ?Hedge. }
    destruct (fires e h s); [|done].
    apply map_eq. intros x. unfold declared, Ref.acquire. rewrite !lookup_alter.
    repeat case_decide; subst; try done;
      match goal with |- context [h !! ?y] => destruct (h !! y) as [u|] end;
      cbn; try done; f_equal; by rewrite ?Hlink, ?Hbump. }
  intros Hne.
  destruct c1 as [s1 o1 | s1 o1 | s1 v1 | s1 v1], c2 as [s2 o2 | s2 o2 | s2 v2 | s2 v2];
    cbn in *.
  all: try (apply effect_commute; destruct (decide (s1 = s2)); [subst|by right];
            first [by left | done]).
  all: try (by rewrite Hmixed by (intros []; reflexivity || (intros; reflexivity))).
  all: try (symmetry; by rewrite Hmixed by (intros []; reflexivity || (intros; reflexivity))).
  all: apply map_eq; intros x; rewrite !lookup_alter;
    repeat case_decide; subst; try done; by destruct (h !! x).
Qed.

Lemma do_calls_two (h k : gmap positive Task) (c1 c2 : call) :
  do_calls h [c1; c2] = Returned k <->
  call_returns h c1 = true /\ call_returns h c2 = true /\
  k = call_effect (call_effect h c1) c2.
Proof.
  assert (do_calls h [c1; c2] = and_then (do_call h c1) (fun k1 => do_call k1 c2)) as ->.
  { cbn. destruct (do_call h c1) as [k1| |]; cbn; [|done..].
    by destruct (do_call k1 c2). }
  split.
  - destruct (do_call h c1) as [k1| |] eqn:Hfirst; cbn; [|done..].
    intros Hsecond. apply do_call_spec in Hfirst as [Hret1 ->].
    apply do_call_spec in Hsecond as [Hret2 ->].
    rewrite (call_returns_ext h) in Hret2 by (intros a; apply call_effect_state).
    done.
  - intros (Hret1 & Hret2 & ->).
    rewrite (proj2 (do_call_spec h _ c1) (conj Hret1 eq_refl)). cbn.
    apply do_call_spec. split; [|done].
    rewrite <- Hret2. apply call_returns_ext. intros a. apply call_effect_state.
Qed.

(** X6: a setter commutes with every call that does not write the same
    member of the same task: with the other setter, with the same setter on
    another task, and with [starts] and [ends] of any task.  The two calls
    return in one order exactly when they return in the other, and leave the
    same store. *)
Theorem setter_commutes (h k : gmap positive Task) (this : addr) (v : Z) (c : call) :
  (writes c <> (MPriority, this) ->
   do_calls h [SetPriority this v; c] = Returned k <->
   do_calls h [c; SetPriority this v] = Returned k) /\
  (writes c <> (MAffinity, this) ->
   do_calls h [SetAffinity this v; c] = Returned k <->
   do_calls h [c; SetAffinity this v] = Returned k).
Proof.
  split; intros Hne; rewrite !do_calls_two;
    rewrite (call_effect_commute h _ c) by (cbn; congruence); tauto.
Qed.

(** Witness of X6: a priority for task 2 and a start edge from task 2. *)
Lemma setter_commutes_witness :
  do_calls three_fresh [Starts 2%positive (Some 3%positive);
                        SetPriority 2%positive TaskPriority.HIGH]
  = Returned (store_of (do_calls three_fresh
                          [SetPriority 2%positive TaskPriority.HIGH;
                           Starts 2%positive (Some 3%positive)])).
Proof.
  destruct (setter_commutes three_fresh
              (store_of (do_calls three_fresh
                           [SetPriority 2%positive TaskPriority.HIGH;
                            Starts 2%positive (Some 3%positive)]))
              2%positive TaskPriority.HIGH (Starts 2%positive (Some 3%positive)))
    as (Hprio & _).
  apply Hprio; [discriminate | reflexivity].
Defined.

(** ** Programs *)

Lemma call_effect_edge_kept (e : edge) (h : gmap positive Task) (c : call)
    (x a : addr) :
  edge_of e <$> h !! x = Some (Some a) ->
  edge_of e <$> call_effect h c !! x = Some (Some a).
Proof.
  destruct c as [this other | this other | this prio | this affi]; cbn.
  - apply effect_edge_kept.
  - apply effect_edge_kept.
  - rewrite lookup_alter. case_decide; subst; [|done].
    by destruct (h !! x) as [[]|], e.
  - rewrite lookup_alter. case_decide; subst; [|done].
    by destruct (h !! x) as [[]|], e.
Qed.

(** A property of stores that every returning call keeps is kept by every
    returning program. *)
Lemma do_calls_ind (P : gmap positive Task -> Prop) :
  (forall (h : gmap positive Task) (c : call),
     P h -> call_returns h c = true -> P (call_effect h c)) ->
  forall (cs : list call) (h k : gmap positive Task),
    P h -> do_calls h cs = Returned k -> P k.
Proof.
  intros Hstep cs. induction cs as [|c cs IH]; intros h k HP; cbn.
  - by intros [= <-].
  - destruct (do_call h c) as [k1| |] eqn:Hcall; [|done..].
    apply do_call_spec in Hcall as [Hret ->]. apply IH. by apply Hstep.
Qed.

(** X7: no program of calls of [starts], [ends], [setPriority] and
    [setAffinity] moves a task to another state, renames it, creates a task
    or destroys one: if the program returns, every task has the state and
    the name it had, and the live tasks are the same. *)
Theorem program_keeps_states (h k : gmap positive Task) (cs : list call) :
  do_calls h cs = Returned k ->
  (forall a : addr,
     state <$> k !! a = state <$> h !! a /\ name <$> k !! a = name <$> h !! a) /\
  dom k = dom h.
Proof.
  intros Hrun.
  assert (forall a : addr,
            state <$> k !! a = state <$> h !! a /\ name <$> k !! a = name <$> h !! a)
    as Hkept.
  { revert Hrun.
    apply (do_calls_ind
             (fun k' => forall a : addr,
                state <$> k' !! a = state <$> h !! a /\
                name <$> k' !! a = name <$> h !! a)); [|done].
    intros h' c IH _ a. destruct (call_effect_state h' c a) as [-> ->]. apply IH. }
  split; [exact Hkept|].
  apply set_eq. intros a. rewrite !elem_of_dom.
  rewrite <- !(fmap_is_Some state). by destruct (Hkept a) as [-> _].
Qed.

(** Witness of X7: a program on the three fresh tasks. *)
Lemma program_keeps_states_witness :
  dom (store_of (do_calls three_fresh
                   [Starts 1%positive (Some 2%positive);
                    SetAffinity 2%positive 4;
                    Ends 3%positive (Some 2%positive)]))
  = dom three_fresh.
Proof.
  apply (program_keeps_states three_fresh _
           [Starts 1%positive (Some 2%positive);
            SetAffinity 2%positive 4;
            Ends 3%positive (Some 2%positive)]).
  reflexivity.
Defined.

(** X8: an edge that is set is final: whatever calls of [starts], [ends],
    [setPriority] and [setAffinity] follow, by whatever tasks, a task whose
    [toBeStarted] is [a] keeps [a] there, and likewise for [toBeEnded]. *)
Theorem declared_edge_is_final (h k : gmap positive Task) (cs : list call)
    (x a : addr) :
  do_calls h cs = Returned k ->
  (toBeStarted <$> h !! x = Some (Some a) -> toBeStarted <$> k !! x = Some (Some a)) /\
  (toBeEnded <$> h !! x = Some (Some a) -> toBeEnded <$> k !! x = Some (Some a)).
Proof.
  intros Hrun.
  assert (forall e : edge,
            edge_of e <$> h !! x = Some (Some a) ->
            edge_of e <$> k !! x = Some (Some a)) as Hfinal.
  { intros e Hset. revert Hrun.
    apply (do_calls_ind (fun k' => edge_of e <$> k' !! x = Some (Some a))); [|done].
    intros h' c IH _. by apply call_effect_edge_kept. }
  split; [exact (Hfinal StartEdge) | exact (Hfinal EndEdge)].
Qed.

(** Witness of X8: task 1 has its start edge to task 3 and tries again with
    task 2, after other calls. *)
Lemma declared_edge_is_final_witness :
  toBeStarted <$>
    store_of (do_calls both_linked
                [SetPriority 1%positive TaskPriority.LOW;
                 Starts 2%positive (Some 1%positive);
                 Starts 1%positive (Some 2%positive)]) !! 1%positive
  = Some (Some 3%positive).
Proof.
  destruct (declared_edge_is_final both_linked
              (store_of (do_calls both_linked
                           [SetPriority 1%positive TaskPriority.LOW;
                            Starts 2%positive (Some 1%positive);
                            Starts 1%positive (Some 2%positive)]))
              [SetPriority 1%positive TaskPriority.LOW;
               Starts 2%positive (Some 1%positive);
               Starts 1%positive (Some 2%positive)]
              1%positive 3%positive eq_refl)
    as (Hstart & _).
  apply Hstart. reflexivity.
Defined.

(** ** Counters and edges *)

Lemma Atomic32_incr_wrap (x : Z) :
  Atomic32.incr (Atomic32.wrap x) = Atomic32.wrap (x + 1).
Proof.
  unfold Atomic32.incr, Atomic32.wrap. f_equal.
  replace ((x + 2147483648) mod 4294967296 - 2147483648 + 1 + 2147483648)
    with ((x + 2147483648) mod 4294967296 + 1) by lia.
  rewrite Zplus_mod_idemp_l. f_equal. lia.
Qed.

Lemma Atomic32_wrap_small (x : Z) :
  -2147483648 <= x <= Atomic32.MAX -> Atomic32.wrap x = x.
Proof.
  unfold Atomic32.wrap, Atomic32.MAX. intros Hx. rewrite Z.mod_small; lia.
Qed.

(** The edges into a task depend on the edge members only. *)
Lemma preds_ext (e : edge) (h k : gmap positive Task) (a : addr) :
  (forall x : addr, edge_of e <$> k !! x = edge_of e <$> h !! x) ->
  preds e k a = preds e h a.
Proof.
  intros Hsame. apply set_eq. intros x. by rewrite !elem_of_preds, Hsame.
Qed.

(** The three writes add the caller to the edges into the target. *)
Lemma preds_declared (e e' : edge) (h : gmap positive Task) (self o a : addr)
    (me : Task) :
  h !! self = Some me -> edge_of e me = None ->
  preds e' (declared e h self o) a =
    if decide (e' = e /\ a = o) then {[self]} ∪ preds e' h a else preds e' h a.
Proof.
  intros Hs Hfree. apply set_eq. intros x.
  assert (edge_of e' <$> declared e h self o !! x =
            if decide (e' = e /\ x = self) then Some (Some o)
            else edge_of e' <$> h !! x) as Hview.
  { rewrite lookup_declared.
    destruct (decide (x = self)) as [-> | Hx].
    - rewrite Hs. cbn.
      destruct e, e'; repeat case_decide; cbn; try done; intuition congruence.
    - destruct (h !! x) as [t|];
        destruct e, e'; repeat case_decide; cbn; try done; intuition congruence. }
  rewrite elem_of_preds, Hview.
  destruct (decide (e' = e /\ a = o)) as [Hhit | Hhit].
  - destruct Hhit as [-> ->].
    rewrite elem_of_union, elem_of_singleton, elem_of_preds.
    destruct (decide (e = e /\ x = self)) as [Hx | Hx].
    + destruct Hx as [_ ->]. split; [by left | done].
    + split; [by right|]. intros [-> | Hin]; [by destruct Hx | done].
  - rewrite elem_of_preds.
    destruct (decide (e' = e /\ x = self)) as [Hx | Hx]; [|done].
    destruct Hx as [-> ->].
    rewrite Hs. cbn. rewrite Hfree.
    split; [|done]. intros [= ->]. by destruct Hhit.
Qed.

Lemma counter_declared (e e' : edge) (h : gmap positive Task) (self o a : addr)
    (t : Task) :
  h !! a = Some t ->
  counter_of e' <$> declared e h self o !! a =
    Some (if decide (e' = e /\ a = o) then Atomic32.incr (counter_of e' t)
          else counter_of e' t).
Proof.
  intros Ha. rewrite lookup_declared, Ha. cbn. f_equal.
  destruct e, e'; repeat case_decide; cbn; try done; intuition congruence.
Qed.

(** Every returning call keeps the counters equal to the number of edges. *)
Lemma counts_edges_call (h : gmap positive Task) (c : call) :
  counts_edges h -> counts_edges (call_effect h c).
Proof.
  assert (forall (e : edge) (self : addr) (other : option addr),
            counts_edges h -> counts_edges (effect e h self other)) as Hdeclare.
  { intros e self other Hinv. unfold effect. destruct other as [o|]; [|done].
    unfold fires. destruct (h !! self) as [me|] eqn:Hs; [|done].
    case_bool_decide as Hfree; [|done].
    intros e' a t' Ha.
    destruct (h !! a) as [t|] eqn:Hold;
      [|by rewrite lookup_declared, Hold in Ha].
    pose proof (counter_declared e e' h self o a t Hold) as Hcount.
    rewrite Ha in Hcount. cbn in Hcount. injection Hcount as ->.
    rewrite (preds_declared e e' h self o a me Hs Hfree).
    rewrite (Hinv e' a t Hold).
    case_decide as Hhit; [|done]. destruct Hhit as [-> ->].
    rewrite Atomic32_incr_wrap. f_equal.
    rewrite size_union, size_singleton; [lia|].
    apply disjoint_singleton_l. rewrite elem_of_preds, Hs. cbn. by rewrite Hfree. }
  assert (forall (f : Task -> Task) (this : addr),
            (forall (e : edge) (u : Task),
               edge_of e (f u) = edge_of e u /\ counter_of e (f u) = counter_of e u) ->
            counts_edges h -> counts_edges (alter f this h)) as Hsetter.
  { intros f this Hf Hinv e a t' Ha.
    rewrite (preds_ext e h).
    2:{ intros x. rewrite lookup_alter. case_decide; [subst|done].
        destruct (h !! x) as [u|]; [|done]. cbn. by destruct (Hf e u) as [-> _]. }
    rewrite lookup_alter in Ha. case_decide; subst; [|by apply Hinv].
    destruct (h !! a) as [t|] eqn:Hold; [|done]. injection Ha as <-.
    destruct (Hf e t) as [_ ->]. by apply Hinv. }
  destruct c as [this other | this other | this prio | this affi]; cbn.
  - apply Hdeclare.
  - apply Hdeclare.
  - apply Hsetter. by intros [] [].
  - apply Hsetter. by intros [] [].
Qed.

(** Fresh tasks have their counters at 1 and no edge into them. *)
Lemma unlinked_counts_edges (h : gmap positive Task) :
  unlinked h -> counts_edges h.
Proof.
  intros Hfresh e a t Ha.
  assert (preds e h a = ∅) as ->.
  { apply set_eq. intros x. rewrite elem_of_preds. split; [|set_solver].
    destruct (h !! x) as [u|] eqn:Hx; [|done]. cbn.
    destruct (Hfresh x u Hx) as (Hs & He & _). destruct e; cbn; rewrite ?Hs, ?He; intros [=]. }
  rewrite size_empty. destruct (Hfresh a t Ha) as (_ & _ & Hs & He).
  destruct e; cbn; by rewrite ?Hs, ?He.
Qed.

(** X9: the counters count the edges.  In the store that a program of calls
    of [starts], [ends], [setPriority] and [setAffinity] leaves, run on tasks
    that have no edge and both counters at 1 (as the constructor leaves
    them), the [toStart] of every task is 1 plus the number of tasks whose
    [toBeStarted] is this task, and its [toEnd] is 1 plus the number of tasks
    whose [toBeEnded] is this task, as a 32 bit cell holds these numbers:
    exactly, below the largest value. *)
Theorem counters_count_edges (h k : gmap positive Task) (cs : list call)
    (a : addr) (t : Task) :
  unlinked h -> do_calls h cs = Returned k -> k !! a = Some t ->
  toStart t = Atomic32.wrap (1 + Z.of_nat (size (preds StartEdge k a))) /\
  toEnd t = Atomic32.wrap (1 + Z.of_nat (size (preds EndEdge k a))) /\
  (Z.of_nat (size (preds StartEdge k a)) < Atomic32.MAX ->
   toStart t = 1 + Z.of_nat (size (preds StartEdge k a))) /\
  (Z.of_nat (size (preds EndEdge k a)) < Atomic32.MAX ->
   toEnd t = 1 + Z.of_nat (size (preds EndEdge k a))).
Proof.
  intros Hfresh Hrun Ha.
  assert (counts_edges k) as Hinv.
  { revert Hrun. apply (do_calls_ind counts_edges).
    - intros h' c Hinv _. by apply counts_edges_call.
    - by apply unlinked_counts_edges. }
  pose proof (Hinv StartEdge a t Ha) as Hstart.
  pose proof (Hinv EndEdge a t Ha) as Hend. cbn in Hstart, Hend.
  repeat split; try done.
  - intros Hsmall. rewrite Hstart. apply Atomic32_wrap_small.
    unfold Atomic32.MAX in *. lia.
  - intros Hsmall. rewrite Hend. apply Atomic32_wrap_small.
    unfold Atomic32.MAX in *. lia.
Qed.

Lemma three_fresh_unlinked : unlinked three_fresh.
Proof.
  intros a t Ha. unfold three_fresh in Ha.
  repeat (rewrite lookup_insert in Ha; case_decide; [by injection Ha as <-|]).
  by rewrite lookup_empty in Ha.
Qed.

(** Witness of X9: two start edges and one end edge into task 3. *)
Lemma counters_count_edges_witness :
  toStart fan_in_sink = Atomic32.wrap (1 + Z.of_nat (size (preds StartEdge fan_in 3%positive))) /\
  toEnd fan_in_sink = Atomic32.wrap (1 + Z.of_nat (size (preds EndEdge fan_in 3%positive))) /\
  toStart fan_in_sink = 3 /\ toEnd fan_in_sink = 2.
Proof.
  destruct (counters_count_edges three_fresh fan_in fan_in_calls 3%positive fan_in_sink
              three_fresh_unlinked eq_refl eq_refl)
    as (Hstart & Hend & _).
  split; [exact Hstart|]. split; [exact Hend|]. split; reflexivity.
Defined.

(** X10: [starts] checks no cycle.  Two different live tasks in state NEW
    without a start edge can each declare the other as its target: both
    calls return, each task has the other in [toBeStarted], and each start
    counter was incremented.  A task can also declare itself. *)
Theorem cycle_not_refused (h : gmap positive Task) (a b : addr) (ta tb : Task) :
  a <> b -> h !! a = Some ta -> h !! b = Some tb ->
  state ta = TaskState.NEW -> state tb = TaskState.NEW ->
  toBeStarted ta = None -> toBeStarted tb = None ->
  (exists k : gmap positive Task,
     (k1 ← starts h a (Some b); starts k1 b (Some a)) = Returned k /\
     toBeStarted <$> k !! a = Some (Some b) /\
     toBeStarted <$> k !! b = Some (Some a) /\
     toStart <$> k !! a = Some (Atomic32.incr (toStart ta)) /\
     toStart <$> k !! b = Some (Atomic32.incr (toStart tb))) /\
  (exists k : gmap positive Task,
     starts h a (Some a) = Returned k /\
     toBeStarted <$> k !! a = Some (Some a) /\
     toStart <$> k !! a = Some (Atomic32.incr (toStart ta))).
Proof.
  intros Hab Ha Hb Hsa Hsb Hea Heb. split.
  - assert (starts h a (Some b) = Returned (declared StartEdge h a b)) as Hfirst.
    { apply (declare_spec StartEdge). unfold returns, effect, fires. cbn.
      rewrite Ha, Hb, Hsb. cbn. rewrite Hea. by split. }
    assert (declared StartEdge h a b !! a = Some (set_toBeStarted (Some b) ta)) as Ha'.
    { rewrite lookup_declared, Ha. cbn.
      rewrite decide_True by done. by rewrite decide_False by done. }
    assert (declared StartEdge h a b !! b
            = Some (RefCount.refInc (set_toStart (Atomic32.incr (toStart tb)) tb))) as Hb'.
    { rewrite lookup_declared, Hb. cbn.
      rewrite decide_False by done. by rewrite decide_True by done. }
    exists (declared StartEdge (declared StartEdge h a b) b a).
    split.
    { rewrite Hfirst.
      change (starts (declared StartEdge h a b) b (Some a)
              = Returned (declared StartEdge (declared StartEdge h a b) b a)).
      apply (declare_spec StartEdge). unfold returns, effect, fires. cbn.
      rewrite Ha', Hb'. cbn. rewrite Hsa, Heb. cbn. by split. }
    rewrite !lookup_declared, Ha, Hb. cbn.
    rewrite !(decide_True (P := a = a)), !(decide_True (P := b = b)) by done.
    rewrite !(decide_False (P := a = b)), !(decide_False (P := b = a)) by done.
    done.
  - exists (declared StartEdge h a a). split.
    + apply (declare_spec StartEdge). unfold returns, effect, fires. cbn.
      rewrite Ha, Hsa. cbn. rewrite Hea. by split.
    + rewrite !lookup_declared, Ha. cbn. by rewrite !decide_True by done.
Qed.

(** Witness of X10: tasks 1 and 2 of the three fresh tasks. *)
Lemma cycle_not_refused_witness :
  exists k : gmap positive Task,
    (k1 ← starts three_fresh 1%positive (Some 2%positive);
     starts k1 2%positive (Some 1%positive)) = Returned k /\
    toBeStarted <$> k !! 1%positive = Some (Some 2%positive) /\
    toBeStarted <$> k !! 2%positive = Some (Some 1%positive).
Proof.
  destruct (cycle_not_refused three_fresh 1%positive 2%positive
              (Task_ctor (Some "root")) (Task_ctor None))
    as ((k & Hrun & Hone & Htwo & _) & _); try reflexivity; [discriminate|].
  exists k. split; [exact Hrun|]. split; [exact Hone | exact Htwo].
Defined.

(** ** Building a graph before submission *)

(** X11: building never fails.  On a store in which every task is in state
    NEW, a program of calls of [starts], [ends], [setPriority] and
    [setAffinity] whose callers and non-null targets are all live tasks
    returns: no assertion fails, whatever edges were declared before and in
    whatever order the calls come; and every task is still in state NEW. *)
Theorem building_never_asserts (h : gmap positive Task) (cs : list call) :
  all_new h ->
  Forall (fun c => forall x : addr, x ∈ mentions c -> is_Some (h !! x)) cs ->
  exists k : gmap positive Task, do_calls h cs = Returned k /\ all_new k.
Proof.
  revert h. induction cs as [|c cs IH]; intros h Hnew Hlive.
  - by exists h.
  - apply Forall_cons in Hlive as [Hc Hcs].
    assert (call_returns h c = true) as Hret.
    { assert (forall a : addr, a ∈ mentions c ->
                exists t : Task, h !! a = Some t /\ state t = TaskState.NEW) as Hget.
      { intros a Ha. destruct (Hc a Ha) as [t Ht]. exists t. split; [done|]. by eapply Hnew. }
      destruct c as [this [o|] | this [o|] | this prio | this affi]; cbn in *;
        unfold returns; cbn;
        try (destruct (Hget o) as (to & -> & ->); [set_solver|]);
        destruct (Hget this) as (t & Ht & Hst); try set_solver;
        rewrite ?Ht, ?Hst; cbn; try done;
        by rewrite bool_decide_eq_true_2 by (by eexists). }
    assert (forall a : addr, state <$> call_effect h c !! a = state <$> h !! a) as Hst
      by (intros a; apply call_effect_state).
    destruct (IH (call_effect h c)) as (k & Hrun & Hk).
    + intros a t Ha. specialize (Hst a). rewrite Ha in Hst. cbn in Hst.
      destruct (h !! a) as [u|] eqn:Hu; [|done]. injection Hst as ->. by eapply Hnew.
    + eapply Forall_impl; [exact Hcs|]. intros c' Hc' x Hx. cbn in Hc'.
      rewrite <- (fmap_is_Some state), Hst, fmap_is_Some. by apply Hc'.
    + exists k. split; [|done]. cbn.
      by rewrite (proj2 (do_call_spec h _ c) (conj Hret eq_refl)).
Qed.

(** Witness of X11: the fan-in program on the three fresh tasks. *)
Lemma building_never_asserts_witness :
  exists k : gmap positive Task, do_calls three_fresh fan_in_calls = Returned k /\ all_new k.
Proof.
  apply (building_never_asserts three_fresh fan_in_calls).
  - intros a t Ha. unfold three_fresh in Ha.
    repeat (rewrite lookup_insert in Ha; case_decide; [by injection Ha as <-|]).
    by rewrite lookup_empty in Ha.
  - unfold fan_in_calls. repeat constructor; cbn; intros x Hx;
      repeat (apply elem_of_cons in Hx as [-> | Hx]; [by eexists|]);
      by apply elem_of_nil in Hx.
Defined.

(** ** What the getters see after a program *)

Lemma call_effect_priority (h : gmap positive Task) (c : call) (x : addr) :
  priority <$> call_effect h c !! x
    = (fun p => step_priority x p c) <$> (priority <$> h !! x) /\
  affinity <$> call_effect h c !! x
    = (fun p => step_affinity x p c) <$> (affinity <$> h !! x).
Proof.
  destruct c as [this other | this other | this prio | this affi]; cbn.
  - destruct (effect_frame StartEdge h this other x) as (_ & _ & -> & ->).
    by destruct (h !! x).
  - destruct (effect_frame EndEdge h this other x) as (_ & _ & -> & ->).
    by destruct (h !! x).
  - rewrite lookup_alter. case_decide; subst; by destruct (h !! x).
  - rewrite lookup_alter. case_decide; subst; by destruct (h !! x).
Qed.

(** X12: after a program of calls of [starts], [ends], [setPriority] and
    [setAffinity] that returns, [getPriority] of a task returns the argument
    of the last [setPriority] call on that task, as a [uint16], and the
    priority the task had before the program if there is no such call;
    likewise [getAffinity] and [setAffinity].  Calls on other tasks and edge
    declarations do not count. *)
Theorem getters_see_last_setter (h k : gmap positive Task) (cs : list call)
    (x : addr) (t : Task) :
  h !! x = Some t -> do_calls h cs = Returned k ->
  getPriority k x = Returned (final_priority cs x (priority t)) /\
  getAffinity k x = Returned (final_affinity cs x (affinity t)).
Proof.
  revert h t. induction cs as [|c cs IH]; intros h t Hx; cbn.
  - intros [= <-]. unfold getPriority, getAffinity, deref. by rewrite Hx.
  - destruct (do_call h c) as [k1| |] eqn:Hcall; [|done..].
    apply do_call_spec in Hcall as [_ ->].
    change (do_calls (call_effect h c) cs = Returned k ->
            getPriority k x = Returned (final_priority cs x (step_priority x (priority t) c)) /\
            getAffinity k x = Returned (final_affinity cs x (step_affinity x (affinity t) c))).
    destruct (call_effect_priority h c x) as [Hprio Haffi].
    rewrite Hx in Hprio, Haffi. cbn in Hprio, Haffi.
    destruct (call_effect h c !! x) as [t1|] eqn:Hx1; [|done].
    injection Hprio as <-. injection Haffi as <-. by apply IH.
Qed.

(** Witness of X12: two priorities for task 2 around an edge declaration. *)
Lemma getters_see_last_setter_witness :
  getPriority
    (store_of (do_calls three_fresh
                 [SetPriority 2%positive TaskPriority.LOW;
                  Starts 2%positive (Some 3%positive);
                  SetPriority 1%positive TaskPriority.CRITICAL;
                  SetPriority 2%positive TaskPriority.HIGH]))
    2%positive
  = Returned TaskPriority.HIGH.
Proof.
  apply (getters_see_last_setter three_fresh _
           [SetPriority 2%positive TaskPriority.LOW;
            Starts 2%positive (Some 3%positive);
            SetPriority 1%positive TaskPriority.CRITICAL;
            SetPriority 2%positive TaskPriority.HIGH]
           2%positive (Task_ctor None)); reflexivity.
Defined.
